(** * Image sourcing: title normalisation, asset resolution, transfer
      and catalog update

    A shallow embedding of [ImageManagementScript.py]:
    [clean_string], [ImageManager.find_image],
    [ImageManager.find_image_by_title_only], [ImageManager.copy_image],
    [ExcelHandler.update_images] and the per-row body of
    [process_images], with the properties the specification states
    about them. *)

From Stdlib Require Import NArith List String Ascii Bool Lia.
From Stdlib Require DecimalString.
From stdpp Require Import base option list gmap.

Set Warnings "-register-all".

Local Open Scope N_scope.

(** ** Text

    A Python [str] is a sequence of Unicode code points.  The library
    functions the script calls on text ([re.sub] with the class [\W],
    [str.lower], [str.strip], the operator [in]) are tabulated on four
    Unicode blocks: Basic Latin, Latin-1 Supplement, Latin Extended-A
    (U+0000 to U+017F) and Combining Diacritical Marks (U+0300 to
    U+036F).  On these blocks the tables agree with CPython's Unicode
    database; [str.lower] has no context-dependent rule there.  Code
    points outside the blocks are not tabulated: statements that depend
    on the tables say so through [tabulated]. *)

Module Text.

Definition codepoint := N.
Abbreviation pystr := (list N).

(** An ASCII literal of the script, as code points. *)
Definition py (s : string) : pystr :=
  List.map N_of_ascii (list_ascii_of_string s).

Definition in_range (lo hi c : codepoint) : bool := (lo <=? c) && (c <=? hi).

Definition tabulated (c : codepoint) : bool :=
  (c <=? 0x17F) || in_range 0x300 0x36F c.

(** [str.isalnum] on one code point: letters, decimal digits and the
    other numeric characters (superscripts, vulgar fractions). *)
Definition isalnum (c : codepoint) : bool :=
  in_range 0x30 0x39 c || in_range 0x41 0x5A c || in_range 0x61 0x7A c
  || (c =? 0xAA) || (c =? 0xB2) || (c =? 0xB3) || (c =? 0xB5)
  || (c =? 0xB9) || (c =? 0xBA) || in_range 0xBC 0xBE c
  || in_range 0xC0 0xD6 c || in_range 0xD8 0xF6 c || in_range 0xF8 0x17F c.

(** The class [\w] of [re] on [str] patterns: alphanumerics and the
    underscore.  [\W] is its complement. *)
Definition is_word (c : codepoint) : bool := isalnum c || (c =? 0x5F).

(** [str.isspace] on one code point. *)
Definition isspace (c : codepoint) : bool :=
  in_range 0x09 0x0D c || in_range 0x1C 0x20 c || (c =? 0x85) || (c =? 0xA0).

(** The lowercase mapping of one code point.  U+0130 (capital I with
    dot above) lowercases to two code points, [i] followed by the
    combining dot above U+0307. *)
Definition lower_char (c : codepoint) : pystr :=
  if in_range 0x41 0x5A c then [c + 32]
  else if in_range 0xC0 0xDE c && negb (c =? 0xD7) then [c + 32]
  else if c =? 0x130 then [0x69; 0x307]
  else if c =? 0x178 then [0xFF]
  else if (in_range 0x100 0x137 c || in_range 0x14A 0x177 c) && N.even c
       then [c + 1]
  else if (in_range 0x139 0x148 c || in_range 0x179 0x17E c) && N.odd c
       then [c + 1]
  else [c].

(** [s.lower()] *)
Definition lower (s : pystr) : pystr := List.flat_map lower_char s.

(** [re.sub(r'\W+', '', s)]: every maximal run of non-word characters
    is replaced by the empty string, which leaves the word characters
    of [s] in order. *)
Definition re_sub_nonword (s : pystr) : pystr := List.filter is_word s.

(** [clean_string], line 47:
    [re.sub(r'\W+', '', s).lower() if s else ''] *)
Definition clean_string (s : pystr) : pystr :=
  match s with
  | [] => []
  | _ :: _ => lower (re_sub_nonword s)
  end.

(** [clean_string] applied to a value that may be [None]: [None] is
    falsy, so the conditional expression yields [''] . *)
Definition clean_string_opt (s : option pystr) : pystr :=
  match s with
  | None => []
  | Some s => clean_string s
  end.

(** [s.startswith(p)] *)
Fixpoint startswith (p s : pystr) : bool :=
  match p, s with
  | [], _ => true
  | _ :: _, [] => false
  | a :: p', b :: s' => (a =? b) && startswith p' s'
  end.

(** [p in s] on strings: [p] occurs in [s] as a contiguous substring. *)
Fixpoint str_in (p s : pystr) : bool :=
  startswith p s ||
  match s with
  | [] => false
  | _ :: s' => str_in p s'
  end.

(** [s.strip()] *)
Fixpoint lstrip (s : pystr) : pystr :=
  match s with
  | [] => []
  | c :: s' => if isspace c then lstrip s' else s
  end.

Definition rstrip (s : pystr) : pystr := rev (lstrip (rev s)).

Definition strip (s : pystr) : pystr := rstrip (lstrip s).

(** Truth value of an optional string: [None] and [''] are falsy. *)
Definition truthy (o : option pystr) : bool :=
  match o with
  | Some (_ :: _) => true
  | _ => false
  end.

(** [o or d] for an optional string [o]. *)
Definition or_else (o : option pystr) (d : pystr) : pystr :=
  match o with
  | Some (c :: s) => c :: s
  | _ => d
  end.

(** The specification's wording of the normaliser, for comparison with
    [clean_string]: lowercase, with every character that is not a
    letter or digit removed. *)
Definition normalize_spec (s : pystr) : pystr :=
  lower (List.filter isalnum s).

End Text.

Import Text.

(** ** The source tree

    A directory lists its entries in the order the operating system
    returns them; that order is the order of the list.  Entry names are
    single path components, compared as they are (a POSIX file system
    that tells upper case from lower case), and a name given to the
    script stands for the entry of that name only when it is itself a
    single component.  The tree has no symbolic links and every
    directory can be read. *)

Module FS.

Inductive node :=
| File (name : pystr)
| Dir (name : pystr) (entries : list node).

(** A [Path], as its components. *)
Abbreviation path := (list pystr).

Definition node_name (n : node) : pystr :=
  match n with
  | File name => name
  | Dir name _ => name
  end.

Definition is_dir (n : node) : bool :=
  match n with
  | Dir _ _ => true
  | File _ => false
  end.

Definition is_file (n : node) : bool := negb (is_dir n).

(** [p.name]: the final component, [''] for the empty path. *)
Definition path_name (p : path) : pystr := default [] (last p).

(** [str(p)], with the POSIX separator. *)
Fixpoint path_str (p : path) : pystr :=
  match p with
  | [] => py "."
  | [c] => c
  | c :: p' => c ++ py "/" ++ path_str p'
  end.

(** The entry called [name] of a directory listing, if there is one:
    what [folder / name] denotes when it exists. *)
Definition lookup_entry (name : pystr) (entries : list node) : option node :=
  List.find (fun e => bool_decide (node_name e = name)) entries.

(** [folder.iterdir()], each entry with its path. *)
Definition iterdir (base : path) (entries : list node) : list (path * node) :=
  List.map (fun e => (base ++ [node_name e], e)) entries.

(** [folder.rglob("*")]: the entries of the folder, then, for each of
    its subdirectories in turn, what the same walk yields below it.
    On something that is not a directory the walk yields nothing. *)
Fixpoint rglob (base : path) (n : node) : list (path * node) :=
  match n with
  | File _ => []
  | Dir _ entries =>
      iterdir base entries ++
      List.flat_map (fun e => rglob (base ++ [node_name e]) e) entries
  end.

(** Induction on trees, with the hypothesis on every entry of a
    directory. *)
Fixpoint node_induction (P : node -> Prop)
    (HF : forall name, P (File name))
    (HD : forall name entries, Forall P entries -> P (Dir name entries))
    (n : node) : P n :=
  match n with
  | File name => HF name
  | Dir name entries =>
      HD name entries
         ((fix all (l : list node) : Forall P l :=
             match l with
             | [] => List.Forall_nil P
             | e :: l' => List.Forall_cons P e l' (node_induction P HF HD e) (all l')
             end) entries)
  end.

End FS.

Import FS.

(** ** Exceptions and results *)

Inductive exn :=
| NotADirectoryError.

Inductive outcome (A : Type) :=
| Returned (a : A)
| Raised (e : exn).

Arguments Returned {A} a.
Arguments Raised {A} e.

(** Outcome of the body of the [try] block of [copy_image]: it runs to
    the end, or it raises [PermissionError], or another [Exception]. *)
Inductive try_outcome :=
| CopyDone
| CopyPermissionError
| CopyException.

(** What a run is given: the source directory and its content, the
    download directory, and how each copy attempt ends (by its rank in
    the run, its source and its destination folder). *)
Record world := {
  source_dir : path;
  source : list node;
  download_dir : path;
  shutil_copy : nat -> path -> path -> try_outcome
}.

(** ** ImageManager: search *)

Module Resolver.

Section Search.

Variable w : world.

(** The test of lines 83 and 107:
    [file.is_file() and clean_string(title) in clean_string(file.name)] *)
Definition is_match (title : pystr) (file : path * node) : bool :=
  is_file file.2 && str_in (clean_string title) (clean_string (path_name file.1)).

(** Line 71:
    [[f for f in distributor_folder.iterdir()
         if 'Poster' in f.name and f.is_dir()]] *)
Definition poster_folders (base : path) (entries : list node) : list (path * node) :=
  List.filter (fun f => str_in (py "Poster") (path_name f.1) && is_dir f.2)
              (iterdir base entries).

(** Lines 72 to 79: the folder to search, [None] when it does not
    exist. *)
Definition target_folder (base : path) (entries : list node) (folder_type : pystr)
  : option (path * node) :=
  let by_type :=
    match lookup_entry folder_type entries with
    | Some t => Some (base ++ [folder_type], t)
    | None => None
    end in
  match poster_folders base entries with
  | [p] => if str_in (py "Horizontal Posters") (path_name p.1) then Some p
           else by_type
  | _ => by_type
  end.

(** Lines 81 to 84. *)
Definition matching_files (title : pystr) (target : path * node) : list path :=
  List.map fst (List.filter (is_match title) (rglob target.1 target.2)).

(** Lines 86 to 89: the first file, by tag and then by position, whose
    name contains one of the priority tags. *)
Fixpoint first_tagged (tags : list pystr) (files : list path) : option path :=
  match tags with
  | [] => None
  | tag :: tags' =>
      match List.find (fun f => str_in tag (path_name f)) files with
      | Some f => Some f
      | None => first_tagged tags' files
      end
  end.

(** Lines 86 to 94. *)
Definition tie_break (files : list path) : option path :=
  match first_tagged [py "(1)"; py "(2)"] files with
  | Some f => Some f
  | None => head files
  end.

(** [ImageManager.find_image], lines 64 to 94.  [exists()] holds of a
    regular file too, and [iterdir()] on one raises.

    The distributor is looked up as the name of one entry of the source
    directory.  This is what [self.source_dir / distributor] denotes on
    a case-sensitive POSIX file system when the distributor is a single
    path component ([folder_name] below).  A distributor that is empty,
    that holds a separator, or that is [.] or [..], denotes another
    path, which this definition does not follow: the statements that
    say the search returns, or does not raise, are made for folder
    names. *)
Definition find_image (movie_title distributor folder_type : pystr)
  : outcome (option path) :=
  let distributor_folder := source_dir w ++ [distributor] in
  match lookup_entry distributor (source w) with
  | None => Returned None
  | Some (File _) => Raised NotADirectoryError
  | Some (Dir _ entries) =>
      match target_folder distributor_folder entries folder_type with
      | None => Returned None
      | Some target => Returned (tie_break (matching_files movie_title target))
      end
  end.

(** [ImageManager.find_image_by_title_only], lines 96 to 110.  The
    distributor is looked up as in [find_image]. *)
Definition find_image_by_title_only (title distributor folder_type : pystr)
  : option path :=
  let dist_folder := source_dir w ++ [distributor] in
  match lookup_entry distributor (source w) with
  | None => None
  | Some (File _) => None
  | Some (Dir _ entries) =>
      match lookup_entry folder_type entries with
      | None => None
      | Some t =>
          head (matching_files title (dist_folder ++ [folder_type], t))
      end
  end.

End Search.

End Resolver.

Import Resolver.

(** ** Dictionaries

    [dict] and [defaultdict(list)] keep their keys in insertion order;
    assigning to a key that is present replaces its value in place. *)

Module Dict.

Section Ops.

Context {V : Type}.

Fixpoint dict_get (k : pystr) (d : list (pystr * V)) : option V :=
  match d with
  | [] => None
  | (k', v) :: d' => if bool_decide (k' = k) then Some v else dict_get k d'
  end.

Fixpoint dict_set (k : pystr) (v : V) (d : list (pystr * V)) : list (pystr * V) :=
  match d with
  | [] => [(k, v)]
  | (k', v') :: d' =>
      if bool_decide (k' = k) then (k', v) :: d' else (k', v') :: dict_set k v d'
  end.

End Ops.

(** [d[k]] for a [defaultdict(list)], without the insertion. *)
Definition bucket (k : pystr) (d : list (pystr * list pystr)) : list pystr :=
  default [] (dict_get k d).

(** [d[k].append(x)] for a [defaultdict(list)]. *)
Definition dd_append (k x : pystr) (d : list (pystr * list pystr))
  : list (pystr * list pystr) :=
  dict_set k (bucket k d ++ [x]) d.

End Dict.

Import Dict.

(** ** The state of a run *)

(** The value [movie_data] holds for a title. *)
Record images := {
  Poster : option pystr;
  Still : option pystr
}.

(** Calls of the two search methods of the [ImageManager], in the order
    they are made. *)
Inductive call :=
| CallFindImage (title distributor folder_type : pystr)
| CallFindImageByTitleOnly (title distributor folder_type : pystr).

(** [copy_errors] is the attribute of the [ImageManager]; [movie_data]
    and [not_found] are the locals of [process_images].  [copied] lists
    the destinations of the copies whose [try] block ran to its end,
    that is the files [copy_image] returned a name for; a copy that
    raises may have left a file at its destination, which is not
    listed.  [attempts] counts the copy attempts and [calls] records
    the search calls. *)
Record run_state := {
  copy_errors : list pystr;
  copied : list path;
  attempts : nat;
  movie_data : list (pystr * images);
  not_found : list (pystr * list pystr);
  calls : list call
}.

Definition initial_state : run_state :=
  {| copy_errors := []; copied := []; attempts := 0%nat;
     movie_data := []; not_found := []; calls := [] |}.

(** A step of the run: it returns a value and a new state, or raises. *)
Definition M (A : Type) : Type := run_state -> outcome (A * run_state).

Definition ret {A} (a : A) : M A := fun st => Returned (a, st).

Definition bind {A B} (c : M A) (k : A -> M B) : M B :=
  fun st =>
    match c st with
    | Returned (a, st') => k a st'
    | Raised e => Raised e
    end.

Notation "'let*' x ':=' c 'in' k" := (bind c (fun x => k))
  (at level 10, x name, c at level 100, k at level 200).

(** Updates of one part of the state. *)
Definition with_calls (cs : list call) (st : run_state) : run_state :=
  {| copy_errors := copy_errors st; copied := copied st;
     attempts := attempts st; movie_data := movie_data st;
     not_found := not_found st; calls := cs |}.

Definition with_movie_data (d : list (pystr * images)) (st : run_state) : run_state :=
  {| copy_errors := copy_errors st; copied := copied st;
     attempts := attempts st; movie_data := d;
     not_found := not_found st; calls := calls st |}.

Definition with_not_found (d : list (pystr * list pystr)) (st : run_state) : run_state :=
  {| copy_errors := copy_errors st; copied := copied st;
     attempts := attempts st; movie_data := movie_data st;
     not_found := d; calls := calls st |}.

(** The state after one more copy attempt. *)
Definition after_copy (errors : list pystr) (files : list path) (st : run_state)
  : run_state :=
  {| copy_errors := errors; copied := files;
     attempts := S (attempts st); movie_data := movie_data st;
     not_found := not_found st; calls := calls st |}.

Definition record_call (c : call) : M unit :=
  fun st => Returned (tt, with_calls (calls st ++ [c]) st).

(** [movie_data[title] = value] *)
Definition set_movie_data (title : pystr) (value : images) : M unit :=
  fun st => Returned (tt, with_movie_data (dict_set title value (movie_data st)) st).

(** [not_found[distributor].append(title)] *)
Definition append_not_found (distributor title : pystr) : M unit :=
  fun st => Returned (tt, with_not_found (dd_append distributor title (not_found st)) st).

(** ** ImageManager: transfer *)

Module Transfer.

Section Copy.

Variable w : world.

(** [ImageManager.copy_image], lines 112 to 128.  Whatever the [try]
    block raises is caught by one of the two handlers, which do the
    same. *)
Definition copy_image (src_path : path) (distributor folder_type : pystr)
  : M (option pystr) :=
  fun st =>
    let dest_folder := download_dir w ++ [distributor; folder_type] in
    let dest_path := dest_folder ++ [path_name src_path] in
    match shutil_copy w (attempts st) src_path dest_folder with
    | CopyDone =>
        Returned (Some (path_name src_path),
                  after_copy (copy_errors st) (copied st ++ [dest_path]) st)
    | CopyPermissionError =>
        Returned (None,
                  after_copy (copy_errors st ++ [path_str src_path]) (copied st) st)
    | CopyException =>
        Returned (None,
                  after_copy (copy_errors st ++ [path_str src_path]) (copied st) st)
    end.

End Copy.

End Transfer.

Import Transfer.

(** ** ExcelHandler *)

Module Excel.

(** A row of the sheet [Movies] from row 2 on: the title cell (column
    B) and the two cells [update_images] writes (columns D and E).  An
    empty cell holds [None]; title cells hold text. *)
Record sheet_row := {
  cellB : option pystr;
  cellD : option pystr;
  cellE : option pystr
}.

Definition set_cellD (v : option pystr) (r : sheet_row) : sheet_row :=
  {| cellB := cellB r; cellD := v; cellE := cellE r |}.

Definition set_cellE (v : option pystr) (r : sheet_row) : sheet_row :=
  {| cellB := cellB r; cellD := cellD r; cellE := v |}.

(** Lines 149 to 155: [sheet_title_map], from the cleaned title to the
    position of the row that holds the cell; a later row with the same
    cleaned title replaces an earlier one. *)
Fixpoint title_map_from (i : nat) (rows : list sheet_row) (m : gmap pystr nat)
  : gmap pystr nat :=
  match rows with
  | [] => m
  | r :: rows' =>
      title_map_from (S i) rows'
        (if truthy (cellB r) then <[clean_string_opt (cellB r) := i]> m else m)
  end.

Definition sheet_title_map (rows : list sheet_row) : gmap pystr nat :=
  title_map_from 0 rows ∅.

(** Lines 158 to 164, for one item of [movie_data]. *)
Definition write_images (m : gmap pystr nat) (rows : list sheet_row)
    (item : pystr * images) : list sheet_row :=
  match m !! clean_string item.1 with
  | None => rows
  | Some i =>
      let rows1 :=
        if truthy (Poster item.2) then alter (set_cellD (Poster item.2)) i rows
        else rows in
      if truthy (Still item.2) then alter (set_cellE (Still item.2)) i rows1
      else rows1
  end.

(** [ExcelHandler.update_images], lines 145 to 166: the rows that are
    saved. *)
Definition update_images (rows : list sheet_row) (movie_data : list (pystr * images))
  : list sheet_row :=
  fold_left (write_images (sheet_title_map rows)) movie_data rows.

End Excel.

Import Excel.

(** ** process_images *)

Module Orchestrator.

Section Run.

Variable w : world.

Definition lift {A} (o : outcome A) : M A :=
  fun st =>
    match o with
    | Returned a => Returned (a, st)
    | Raised e => Raised e
    end.

Definition call_find_image (title distributor folder_type : pystr)
  : M (option path) :=
  let* _ := record_call (CallFindImage title distributor folder_type) in
  lift (find_image w title distributor folder_type).

Definition call_find_image_by_title_only (title distributor folder_type : pystr)
  : M (option path) :=
  let* _ := record_call (CallFindImageByTitleOnly title distributor folder_type) in
  ret (find_image_by_title_only w title distributor folder_type).

(** Lines 209 to 211, and 213 to 215: a [Path] is always truthy, so
    [not poster_path] holds exactly of [None]. *)
Definition resolve (title distributor folder_type : pystr) : M (option path) :=
  let* found := call_find_image title distributor folder_type in
  match found with
  | Some _ => ret found
  | None => call_find_image_by_title_only title distributor folder_type
  end.

(** Lines 217 and 218. *)
Definition transfer (src : option path) (distributor folder_type : pystr)
  : M (option pystr) :=
  match src with
  | Some src_path => copy_image w src_path distributor folder_type
  | None => ret None
  end.

(** Lines 217 to 223. *)
Definition transfer_and_record (title distributor : pystr)
    (poster_path still_path : option path) : M unit :=
  let* poster_name := transfer poster_path distributor (py "Poster") in
  let* still_name := transfer still_path distributor (py "Still") in
  let* _ := set_movie_data title {| Poster := poster_name; Still := still_name |} in
  if negb (truthy poster_name) && negb (truthy still_name)
  then append_not_found distributor title
  else ret tt.

(** Lines 209 to 223. *)
Definition process_entry (title distributor : pystr) : M unit :=
  let* poster_path := resolve title distributor (py "Poster") in
  let* still_path := resolve title distributor (py "Still") in
  transfer_and_record title distributor poster_path still_path.

(** The body of the loop, lines 199 to 223, on the two cells of a row;
    a missing cell ([pd.notna] fails) is [None]. *)
Definition process_row (row : option pystr * option pystr) : M unit :=
  let title_str := strip <$> row.1 in
  let distributor_str := strip <$> row.2 in
  match title_str, distributor_str with
  | Some (tc :: ts), Some (dc :: ds) => process_entry (tc :: ts) (dc :: ds)
  | _, _ =>
      append_not_found (or_else distributor_str (py "UNDEFINED DISTRIBUTOR"))
                       (or_else title_str (py "Undefined title"))
  end.

Fixpoint for_each {A} (body : A -> M unit) (l : list A) : M unit :=
  match l with
  | [] => ret tt
  | x :: l' => let* _ := body x in for_each body l'
  end.

(** [process_images] up to the call of [generate_report]: the rows
    saved to the workbook and the final state, unless a row raised. *)
Definition process_images (df_movies : list (option pystr * option pystr))
    (sheet : list sheet_row) : outcome (list sheet_row * run_state) :=
  match for_each process_row df_movies initial_state with
  | Returned (_, st) => Returned (update_images sheet (movie_data st), st)
  | Raised e => Raised e
  end.

End Run.

End Orchestrator.

Import Orchestrator.

(** ** Vocabulary of the statements *)

Module Vocabulary.

(** A word character is settled when lowercasing it gives one word
    character which lowercasing leaves alone. *)
Definition settled (c : codepoint) : bool :=
  match lower_char c with
  | [c'] => is_word c' && bool_decide (lower_char c' = [c'])
  | _ => false
  end.

Definition word_chars_settle (c : codepoint) : bool :=
  negb (is_word c) || (c =? 0x130) || settled c.

(** [x] is the first element of [l], in the order of [l], that
    satisfies [P]. *)
Definition first_such {A} (P : A -> bool) (l : list A) (x : A) : Prop :=
  exists l1 l2, l = l1 ++ x :: l2 /\ P x = true /\
                forall y, In y l1 -> P y = false.

(** The raw file name of [f] contains [tag]. *)
Definition has_tag (tag : pystr) (f : path) : bool := str_in tag (path_name f).

(** [f] is the candidate the tie-break rule designates: the first one
    tagged ["(1)"] if there is one, otherwise the first one tagged
    ["(2)"] if there is one, otherwise the first candidate. *)
Definition chosen (candidates : list path) (f : path) : Prop :=
  ((exists g, In g candidates /\ has_tag (py "(1)") g = true) ->
   first_such (has_tag (py "(1)")) candidates f) /\
  ((forall g, In g candidates -> has_tag (py "(1)") g = false) ->
   (exists g, In g candidates /\ has_tag (py "(2)") g = true) ->
   first_such (has_tag (py "(2)")) candidates f) /\
  ((forall g, In g candidates -> has_tag (py "(1)") g = false) ->
   (forall g, In g candidates -> has_tag (py "(2)") g = false) ->
   head candidates = Some f).

(** A directory whose name contains ["Poster"]. *)
Definition is_poster_dir (n : node) : bool :=
  str_in (py "Poster") (node_name n) && is_dir n.

(** [p] is the one directory among [entries] whose name contains
    ["Poster"]. *)
Definition only_poster_dir (entries : list node) (p : node) : Prop :=
  exists l1 l2, entries = l1 ++ p :: l2 /\ is_poster_dir p = true /\
                forall n, In n (l1 ++ l2) -> is_poster_dir n = false.

(** The distributor folder has the single shared folder of horizontal
    posters. *)
Definition horizontal_posters_case (entries : list node) (p : node) : Prop :=
  only_poster_dir entries p /\
  str_in (py "Horizontal Posters") (node_name p) = true.

(** What [folder / name] is when it exists, with its path. *)
Definition by_type (base : path) (entries : list node) (folder_type : pystr)
  : option (path * node) :=
  match lookup_entry folder_type entries with
  | Some t => Some (base ++ [folder_type], t)
  | None => None
  end.

(** The files below a folder, in the order the walk yields them. *)
Definition files_under (target : path * node) : list path :=
  List.map fst (List.filter (fun e => is_file e.2) (rglob target.1 target.2)).

(** No entry of the tree has an empty name. *)
Fixpoint names_ok (n : node) : bool :=
  match n with
  | File name => negb (bool_decide (name = []))
  | Dir name entries => negb (bool_decide (name = [])) && forallb names_ok entries
  end.

(** The source directory of the tie-break example: three candidates for
    the title ["X"]. *)
Definition tie_break_world : world :=
  {| source_dir := [py "Movies"];
     source := [Dir (py "D") [Dir (py "Poster")
                 [File (py "X(2).jpg"); File (py "X(1).jpg"); File (py "X.jpg")]]];
     download_dir := [py "Downloads"];
     shutil_copy := fun _ _ _ => CopyDone |}.

(** A distributor with the single folder ["Horizontal Posters Extra"]. *)
Definition horizontal_world : world :=
  {| source_dir := [py "Movies"];
     source := [Dir (py "D") [File (py "notes.txt");
                              Dir (py "Horizontal Posters Extra") [File (py "X.jpg")]]];
     download_dir := [py "Downloads"];
     shutil_copy := fun _ _ _ => CopyDone |}.

(** The source directory of the end-to-end scenario: one poster for
    ["Title A"] under ["DistX"], nothing for ["DistY"]. *)
Definition scenario_world : world :=
  {| source_dir := [py "Movies"];
     source := [Dir (py "DistX") [Dir (py "Poster") [File (py "title-a-final.jpg")]]];
     download_dir := [py "Downloads"];
     shutil_copy := fun _ _ _ => CopyDone |}.

(** The file written for a category when the transfer returned
    [name], none when it returned [None]. *)
Definition written (w : world) (distributor folder_type : pystr)
    (name : option pystr) : list path :=
  match name with
  | Some n => [(download_dir w ++ [distributor; folder_type]) ++ [n]]
  | None => []
  end.

(** Every recorded call of the fallback search has arguments on which
    the primary search returns [None]. *)
Definition fallback_justified (w : world) (cs : list call) : Prop :=
  forall title distributor folder_type,
    In (CallFindImageByTitleOnly title distributor folder_type) cs ->
    find_image w title distributor folder_type = Returned None.

(** The value [v] was written into a cell of the row [r] for the
    category read by [pick]: some item of [movie_data] has a title with
    the cleaned form of the title of [r] and holds the file name [v]
    for that category. *)
Definition written_from (pick : images -> option pystr)
    (movie_data : list (pystr * images)) (r : sheet_row) (v : option pystr) : Prop :=
  exists k imgs,
    In (k, imgs) movie_data /\
    truthy (cellB r) = true /\
    clean_string k = clean_string_opt (cellB r) /\
    truthy (pick imgs) = true /\
    v = pick imgs.

(** What [update_images] may have made of the row [r]. *)
Definition updated_from (movie_data : list (pystr * images)) (r r' : sheet_row)
  : Prop :=
  cellB r' = cellB r /\
  (cellD r' = cellD r \/ written_from Poster movie_data r (cellD r')) /\
  (cellE r' = cellE r \/ written_from Still movie_data r (cellE r')).

(** A sheet of two films and the results of a run that found a poster
    for the first. *)
Definition scenario_sheet : list sheet_row :=
  [ {| cellB := Some (py "Title A"); cellD := None; cellE := None |};
    {| cellB := Some (py "Title B"); cellD := None; cellE := None |} ].

Definition scenario_results : list (pystr * images) :=
  [ (py "Title A", {| Poster := Some (py "title-a-final.jpg"); Still := None |});
    (py "Title B", {| Poster := None; Still := None |}) ].

(** A run in which every copy is refused. *)
Definition refusing_world : world :=
  {| source_dir := [py "Movies"];
     source := [Dir (py "DistX") [Dir (py "Poster") [File (py "title-a-final.jpg")]]];
     download_dir := [py "Downloads"];
     shutil_copy := fun _ _ _ => CopyPermissionError |}.

End Vocabulary.

Import Vocabulary.

(** ** generate_report

    The text the report is made of.  [str.upper] is tabulated on the
    blocks of [Text]; [textwrap.dedent] is embedded as the library
    defines it: lines of spaces and tabs are emptied, the margin is the
    longest run of spaces and tabs that starts every other line, and
    the margin is removed from the start of each line. *)

Module Report.

Definition nl : codepoint := 0x0A.

(** [f"{n}"] for a count. *)
Definition str_of_nat (n : nat) : pystr :=
  py (DecimalString.NilZero.string_of_uint (Nat.to_uint n)).

(** The uppercase mapping of one code point. *)
Definition upper_char (c : codepoint) : pystr :=
  if in_range 0x61 0x7A c then [c - 32]
  else if c =? 0xB5 then [0x39C]
  else if c =? 0xDF then [0x53; 0x53]
  else if in_range 0xE0 0xFE c && negb (c =? 0xF7) then [c - 32]
  else if c =? 0xFF then [0x178]
  else if c =? 0x131 then [0x49]
  else if c =? 0x149 then [0x2BC; 0x4E]
  else if c =? 0x17F then [0x53]
  else if c =? 0x345 then [0x399]
  else if (in_range 0x100 0x137 c || in_range 0x14A 0x177 c) && N.odd c
       then [c - 1]
  else if (in_range 0x139 0x148 c || in_range 0x179 0x17E c) && N.even c
       then [c - 1]
  else [c].

(** [s.upper()] *)
Definition upper (s : pystr) : pystr := List.flat_map upper_char s.

(** [sep.join(l)] *)
Fixpoint join (sep : pystr) (l : list pystr) : pystr :=
  match l with
  | [] => []
  | [x] => x
  | x :: l' => x ++ sep ++ join sep l'
  end.

(** The lines of a text: what stands between its line feeds. *)
Fixpoint split_nl (s : pystr) : list pystr :=
  match s with
  | [] => [[]]
  | c :: s' =>
      if c =? nl then [] :: split_nl s'
      else match split_nl s' with
           | [] => [[c]]
           | l :: ls => (c :: l) :: ls
           end
  end.

(** The class [[ \t]] of the two patterns of [textwrap]. *)
Definition is_blank_char (c : codepoint) : bool := (c =? 0x20) || (c =? 0x09).

(** [_whitespace_only_re.sub('', text)], on one line. *)
Definition blank_line (l : pystr) : pystr :=
  if forallb is_blank_char l then [] else l.

(** The leading run of spaces and tabs of a line. *)
Fixpoint leading_blanks (l : pystr) : pystr :=
  match l with
  | [] => []
  | c :: l' => if is_blank_char c then c :: leading_blanks l' else []
  end.

(** [_leading_whitespace_re.findall(text)]: the leading run of every
    line that has another character. *)
Definition indents (lines : list pystr) : list pystr :=
  List.map leading_blanks
           (List.filter (fun l => negb (bool_decide (l = []))) lines).

Fixpoint common_prefix (a b : pystr) : pystr :=
  match a, b with
  | x :: a', y :: b' => if x =? y then x :: common_prefix a' b' else []
  | _, _ => []
  end.

(** One turn of the loop of [dedent] over the indents. *)
Definition narrow (margin : option pystr) (indent : pystr) : option pystr :=
  match margin with
  | None => Some indent
  | Some m =>
      if startswith m indent then Some m
      else if startswith indent m then Some indent
      else Some (common_prefix m indent)
  end.

(** [re.sub(r'(?m)^' + margin, '', text)], on one line. *)
Definition remove_margin (margin l : pystr) : pystr :=
  if startswith margin l then drop (length margin) l else l.

(** [textwrap.dedent(text)] *)
Definition dedent (text : pystr) : pystr :=
  let lines := List.map blank_line (split_nl text) in
  match fold_left narrow (indents lines) None with
  | Some (c :: m) => join [nl] (List.map (remove_margin (c :: m)) lines)
  | _ => join [nl] lines
  end.

(** A row of the sheet [Distributor_contact]: the distributor, when
    the cell holds text, and the name and the address as the f-strings
    format them. *)
Record contact := {
  contact_distributor : option pystr;
  contact_name : pystr;
  contact_email : pystr
}.

(** Line 253:
    [distributor_contact_df[distributor_contact_df['Distributor'] == distributor]] *)
Definition contact_info (df : list contact) (distributor : pystr) : list contact :=
  List.filter (fun c => bool_decide (contact_distributor c = Some distributor)) df.

(** The f-string of lines 258 to 270, before [dedent]. *)
Definition message_text (name : pystr) (titles : list pystr) : pystr :=
  py "                    Hi " ++ name ++ py "," ++ [nl] ++
  [nl] ++
  py "                    I hope this message finds you well." ++ [nl] ++
  py "                    Could you please assist with the poster and still images for the titles listed below?" ++ [nl] ++
  [nl] ++
  py "                    " ++ List.flat_map (fun t => py "- " ++ t ++ [nl]) titles ++ [nl] ++
  [nl] ++
  py "                    These assets will be featured onboard the Condor 0225 update." ++ [nl] ++
  [nl] ++
  py "                    Thank you in advance." ++ [nl] ++
  [nl] ++
  py "                    Best regards," ++ [nl] ++
  py "                ".

Definition message (name : pystr) (titles : list pystr) : pystr :=
  dedent (message_text name titles).

(** Line 241: [sum(len(titles) for titles in not_found.values())] *)
Definition total_missing (not_found : list (pystr * list pystr)) : nat :=
  list_sum (List.map (fun entry => length entry.2) not_found).

(** Lines 249 to 277, for one item of [not_found]. *)
Definition distributor_lines (df : list contact) (entry : pystr * list pystr)
  : list pystr :=
  let distributor := entry.1 in
  let titles := entry.2 in
  [py "DISTRIBUTOR " ++ upper distributor ++ py ":"] ++
  List.map (fun title => py " - " ++ title) titles ++
  match contact_info df distributor with
  | c :: _ =>
      [ [nl] ++ py "Email draft for " ++ distributor ++ py ":";
        py "To: " ++ contact_email c;
        py "Message:";
        message (contact_name c) titles ]
  | [] => [py "No contact information found for " ++ distributor]
  end.

(** Lines 282 to 286. *)
Definition error_lines (copy_errors : list pystr) : list pystr :=
  match copy_errors with
  | [] => []
  | _ :: _ =>
      ([nl] ++ py "Errors copying these files:")
      :: List.map (fun err_file => py "- " ++ err_file) copy_errors
  end.

(** Lines 243 to 286: the list [lines]. *)
Definition report_lines (not_found : list (pystr * list pystr)) (df : list contact)
    (copy_errors : list pystr) : list pystr :=
  (if (0 <? total_missing not_found)%nat
   then (py "Images were not found for " ++ str_of_nat (total_missing not_found)
         ++ py " titles:" ++ [nl])
        :: List.flat_map (distributor_lines df) not_found
   else [py "All images were successfully found."])
  ++ error_lines copy_errors.

(** [generate_report], lines 232 to 292: the text written to
    [image_search_report.txt]. *)
Definition generate_report (not_found : list (pystr * list pystr)) (df : list contact)
    (copy_errors : list pystr) : pystr :=
  join [nl] (report_lines not_found df copy_errors).

End Report.

Import Report.

(** [process_images], lines 173 to 226, with the report: the rows saved
    to the workbook and the text of the report, unless a row raised. *)
Definition process_images_report (w : world)
    (df_movies : list (option pystr * option pystr)) (sheet : list sheet_row)
    (df_contacts : list contact) : outcome (list sheet_row * pystr) :=
  match process_images w df_movies sheet with
  | Returned (sheet', st) =>
      Returned (sheet', generate_report (not_found st) df_contacts (copy_errors st))
  | Raised e => Raised e
  end.

(** ** Further notions *)

Module Notions.

(** A character of a cleaned string is neither white space nor an
    ASCII capital. *)
Definition plain_char (c : codepoint) : bool :=
  negb (is_word c && bool_decide (lower_char c = [c]))
  || (negb (isspace c) && negb (in_range 0x41 0x5A c)).

(** A name that [source_dir / name] resolves to the entry of that name
    of the source directory: it is not empty, holds no separator and is
    neither [.] nor [..]. *)
Definition folder_name (s : pystr) : bool :=
  negb (bool_decide (s = []))
  && negb (existsb (N.eqb 0x2F) s)
  && negb (bool_decide (s = py "."))
  && negb (bool_decide (s = py "..")).


(** A distributor with the folder of horizontal posters and a folder
    ["Still"]: the still of ["X"] is found by the fallback search only. *)
Definition fallback_world : world :=
  {| source_dir := [py "Movies"];
     source := [Dir (py "D") [Dir (py "Horizontal Posters") [File (py "Y.jpg")];
                              Dir (py "Still") [File (py "X.jpg")]]];
     download_dir := [py "Downloads"];
     shutil_copy := fun _ _ _ => CopyDone |}.

(** A cell is blank when it is missing or holds white space only. *)
Definition blank (cell : option pystr) : bool :=
  match cell with
  | None => true
  | Some s => forallb isspace s
  end.

(** The stripped title and distributor of a row that has both. *)
Definition valid_row (row : option pystr * option pystr) : option (pystr * pystr) :=
  match strip <$> row.1, strip <$> row.2 with
  | Some (tc :: ts), Some (dc :: ds) => Some (tc :: ts, dc :: ds)
  | _, _ => None
  end.

(** The distributor of every row that has a title and a distributor is
    a folder name. *)
Definition folder_rows (rows : list (option pystr * option pystr)) : Prop :=
  forall row t d, In row rows -> valid_row row = Some (t, d) -> folder_name d = true.

(** The file the run resolves for a title and a category: the result of
    [find_image], or that of [find_image_by_title_only] when the first
    search returned [None]. *)
Definition found_for (w : world) (t d ft : pystr) (p : path) : Prop :=
  find_image w t d ft = Returned (Some p) \/
  (find_image w t d ft = Returned None /\
   find_image_by_title_only w t d ft = Some p).

(** The string [e] is the source path of a file resolved for the title
    [t] of the distributor [d] whose copy raised. *)
Definition failed_copy (w : world) (t d e : pystr) : Prop :=
  exists ft p k,
    (ft = py "Poster" \/ ft = py "Still") /\
    found_for w t d ft p /\
    shutil_copy w k p (download_dir w ++ [d; ft]) <> CopyDone /\
    e = path_str p.

(** Every file name [movie_data] holds for a category names a file
    written into a folder of that category below the download
    directory. *)
Definition names_are_copies (w : world) (st : run_state) : Prop :=
  forall k imgs n,
    In (k, imgs) (movie_data st) ->
    (Poster imgs = Some n ->
     exists d, In ((download_dir w ++ [d; py "Poster"]) ++ [n]) (copied st)) /\
    (Still imgs = Some n ->
     exists d, In ((download_dir w ++ [d; py "Still"]) ++ [n]) (copied st)).

(** A source directory in which the distributor's name is that of a
    regular file. *)
Definition file_world : world :=
  {| source_dir := [py "Movies"];
     source := [File (py "DistX")];
     download_dir := [py "Downloads"];
     shutil_copy := fun _ _ _ => CopyDone |}.

(** What the report shows for a cell: its stripped text, or the
    placeholder when the cell is blank. *)
Definition shown (cell : option pystr) (placeholder : pystr) : pystr :=
  if blank cell then placeholder else strip (default [] cell).

(** The rows of the end-to-end scenario, with a third row that has no
    title. *)
Definition scenario_rows : list (option pystr * option pystr) :=
  [ (Some (py " Title A "), Some (py "DistX"));
    (Some (py "Title B"), Some (py "DistY"));
    (None, Some (py "DistY")) ].

(** The position of the last row whose title cell is not empty and has
    the cleaned form [k]. *)
Fixpoint last_index (k : pystr) (rows : list sheet_row) : option nat :=
  match rows with
  | [] => None
  | r :: rows' =>
      match last_index k rows' with
      | Some j => Some (S j)
      | None =>
          if truthy (cellB r) && bool_decide (clean_string_opt (cellB r) = k)
          then Some 0%nat else None
      end
  end.

(** What one item of [movie_data] makes of the row at position [i]. *)
Definition write_row (m : gmap pystr nat) (i : nat) (r : sheet_row)
    (item : pystr * images) : sheet_row :=
  match m !! clean_string item.1 with
  | Some j =>
      if bool_decide (j = i) then
        let r1 := if truthy (Poster item.2) then set_cellD (Poster item.2) r else r in
        if truthy (Still item.2) then set_cellE (Still item.2) r1 else r1
      else r
  | None => r
  end.

(** A sheet in which two rows have the same cleaned title. *)
Definition duplicate_sheet : list sheet_row :=
  [ {| cellB := Some (py "Title A"); cellD := None; cellE := None |};
    {| cellB := Some (py "title-a!"); cellD := None; cellE := None |} ].

(** A line of an indented text: spaces and tabs only, or the margin
    followed by a character of another kind and the rest of the line. *)
Inductive text_line :=
| BlankLine (l : pystr)
| ContentLine (c : codepoint) (rest : pystr).

(** The line as it stands in the text, for the margin [m]. *)
Definition raw_line (m : pystr) (x : text_line) : pystr :=
  match x with
  | BlankLine l => l
  | ContentLine c rest => m ++ c :: rest
  end.

(** The line without its margin; a blank line is emptied. *)
Definition dedented_line (x : text_line) : pystr :=
  match x with
  | BlankLine _ => []
  | ContentLine c rest => c :: rest
  end.

(** The line has no line feed, and is of its kind. *)
Definition line_ok (x : text_line) : Prop :=
  match x with
  | BlankLine l => forallb is_blank_char l = true
  | ContentLine c rest => is_blank_char c = false /\ c <> nl /\ ~ In nl rest
  end.

Definition is_content (x : text_line) : bool :=
  match x with
  | ContentLine _ _ => true
  | BlankLine _ => false
  end.

End Notions.

Import Notions.

(** * Properties *)

(** ** Text: substrings *)

Section TextFacts.

Lemma startswith_app (p r : pystr) : startswith p (p ++ r) = true.
Proof.
  induction p as [|a p IH]; simpl; [reflexivity|].
  rewrite N.eqb_refl. exact IH.
Qed.

Lemma startswith_inv (p s : pystr) :
  startswith p s = true -> exists r, s = p ++ r.
Proof.
  revert s. induction p as [|a p IH]; intros s H.
  - exists s. reflexivity.
  - destruct s as [|b s]; simpl in H; [discriminate|].
    apply andb_true_iff in H as [Hab Hps].
    apply N.eqb_eq in Hab. subst b.
    destruct (IH _ Hps) as [r ->]. exists r. reflexivity.
Qed.

Lemma startswith_str_in (p s : pystr) :
  startswith p s = true -> str_in p s = true.
Proof. intros H. destruct s; simpl; rewrite H; reflexivity. Qed.

(** [p in s] holds exactly when [s] is [p] with something before and
    something after. *)
Lemma str_in_spec (p s : pystr) :
  str_in p s = true <-> exists l r, s = l ++ p ++ r.
Proof.
  split.
  - induction s as [|b s IH]; simpl; intros H.
    + rewrite orb_false_r in H. apply startswith_inv in H as [r Hr].
      exists [], r. exact Hr.
    + apply orb_true_iff in H as [H|H].
      * apply startswith_inv in H as [r Hr]. exists [], r. exact Hr.
      * destruct (IH H) as (l & r & ->). exists (b :: l), r. reflexivity.
  - intros (l & r & ->). induction l as [|b l IH]; simpl.
    + apply startswith_str_in, startswith_app.
    + rewrite IH. apply orb_true_r.
Qed.

(** The empty string is contained in every string. *)
Lemma str_in_nil (s : pystr) : str_in [] s = true.
Proof. destruct s; reflexivity. Qed.

End TextFacts.

(** ** Text: the normaliser *)

Section CleanString.

(** [clean_string] never raises and, on every string, is the lowercase
    form of its word characters. *)
Lemma clean_string_unfold (s : pystr) :
  clean_string s = lower (re_sub_nonword s).
Proof. destruct s; reflexivity. Qed.

Lemma clean_string_opt_none : clean_string_opt None = [].
Proof. reflexivity. Qed.

Lemma is_word_bound (c : codepoint) : is_word c = true -> c <= 0x17F.
Proof.
  unfold is_word, isalnum, in_range. intros H.
  repeat (apply orb_true_iff in H as [H|H]);
    repeat match goal with
           | H : _ && _ = true |- _ => apply andb_true_iff in H as [? ?]
           | H : (_ <=? _) = true |- _ => apply N.leb_le in H
           | H : (_ =? _) = true |- _ => apply N.eqb_eq in H
           end; lia.
Qed.

Lemma word_chars_settle_table :
  forallb word_chars_settle (List.map N.of_nat (seq 0 384)) = true.
Proof. vm_compute. reflexivity. Qed.

Lemma word_char_settled (c : codepoint) :
  is_word c = true -> c <> 0x130 -> settled c = true.
Proof.
  intros Hw Hne.
  assert (Hin : In c (List.map N.of_nat (seq 0 384))).
  { apply is_word_bound in Hw. apply in_map_iff. exists (N.to_nat c).
    split; [apply N2Nat.id|]. apply in_seq. lia. }
  pose proof word_chars_settle_table as Ht.
  rewrite forallb_forall in Ht. specialize (Ht c Hin).
  unfold word_chars_settle in Ht. rewrite Hw in Ht. simpl in Ht.
  apply orb_true_iff in Ht as [Ht|Ht]; [|exact Ht].
  apply N.eqb_eq in Ht. contradiction.
Qed.

(** A string of word characters fixed by lowercasing is its own
    cleaned form. *)
Lemma clean_string_fixed (t : pystr) :
  (forall c, In c t -> is_word c = true /\ lower_char c = [c]) ->
  clean_string t = t.
Proof.
  intros H. rewrite clean_string_unfold. unfold lower, re_sub_nonword.
  induction t as [|c t IH]; [reflexivity|].
  destruct (H c (or_introl eq_refl)) as [Hw Hl].
  simpl. rewrite Hw. simpl. rewrite Hl. simpl. f_equal.
  apply IH. intros c' Hc'. apply H. right. exact Hc'.
Qed.

Lemma clean_string_chars (s : pystr) (c : codepoint) :
  ~ In 0x130 s -> In c (clean_string s) ->
  is_word c = true /\ lower_char c = [c].
Proof.
  intros Hno. rewrite clean_string_unfold. unfold lower, re_sub_nonword.
  intros Hc. apply in_flat_map in Hc as (a & Ha & Hc).
  apply filter_In in Ha as [Ha Hw].
  assert (Hs : settled a = true).
  { apply word_char_settled; [exact Hw|]. intros ->. contradiction. }
  unfold settled in Hs.
  destruct (lower_char a) as [|c' [|? ?]]; try discriminate.
  apply andb_true_iff in Hs as [Hw' Hl'].
  apply bool_decide_eq_true in Hl'.
  destruct Hc as [<-|[]]. split; assumption.
Qed.

End CleanString.

(** C4: evaluation of [clean_string] at ["a_b"].  The underscore is not
    a letter or digit, yet [\W] does not match it: the code returns
    ["a_b"], where the lowercase form with every character that is not
    a letter or digit removed is ["ab"]. *)
Theorem clean_string_keeps_underscore :
  clean_string (py "a_b") = py "a_b" /\
  isalnum 0x5F = false /\
  normalize_spec (py "a_b") = py "ab" /\
  clean_string (py "a_b") <> normalize_spec (py "a_b").
Proof. vm_compute. repeat split; try reflexivity. discriminate. Qed.

(** C5, as stated, fails: on the capital I with dot above (U+0130) the
    cleaned form is [i] followed by the combining dot above, which a
    second pass removes. *)
Lemma clean_string_not_idempotent :
  clean_string [0x130] = [0x69; 0x307] /\
  clean_string (clean_string [0x130]) = [0x69] /\
  clean_string (clean_string [0x130]) <> clean_string [0x130].
Proof. vm_compute. repeat split; discriminate. Qed.

(** C5, amended: on every string of the tabulated blocks that does not
    contain U+0130, cleaning twice gives the same as cleaning once; and
    ["The Movie!"] and ["the   movie"] have the same cleaned form. *)
Theorem clean_string_idempotent :
  (forall s : pystr,
      forallb tabulated s = true -> ~ In 0x130 s ->
      clean_string (clean_string s) = clean_string s) /\
  clean_string (py "The Movie!") = clean_string (py "the   movie").
Proof.
  split; [|vm_compute; reflexivity].
  intros s _ Hno. apply clean_string_fixed.
  intros c Hc. exact (clean_string_chars s c Hno Hc).
Qed.

Lemma clean_string_idempotent_witness :
  clean_string (clean_string (py "The_Movie 2: " ++ [0xC9; 0x74; 0xE9] ++ py "!")) =
  clean_string (py "The_Movie 2: " ++ [0xC9; 0x74; 0xE9] ++ py "!").
Proof.
  apply (proj1 clean_string_idempotent).
  - vm_compute. reflexivity.
  - vm_compute. intuition discriminate.
Defined.

(** ** Lists: first elements and filters *)

Section ListFacts.

Context {A : Type}.

Lemma find_first_such (P : A -> bool) (l : list A) (x : A) :
  List.find P l = Some x <-> first_such P l x.
Proof.
  split.
  - induction l as [|a l IH]; simpl; [discriminate|].
    destruct (P a) eqn:Ea.
    + intros [= ->]. exists [], l. repeat split; [exact Ea|]. intros y [].
    + intros H. destruct (IH H) as (l1 & l2 & -> & Hx & Hl1).
      exists (a :: l1), l2. repeat split; [exact Hx|].
      intros y [<-|Hy]; [exact Ea|exact (Hl1 y Hy)].
  - intros (l1 & l2 & -> & Hx & Hl1).
    induction l1 as [|a l1 IH]; simpl.
    + rewrite Hx. reflexivity.
    + rewrite (Hl1 a (or_introl eq_refl)). apply IH.
      intros y Hy. apply Hl1. right. exact Hy.
Qed.

Lemma find_none_iff (P : A -> bool) (l : list A) :
  List.find P l = None <-> forall y, In y l -> P y = false.
Proof.
  split; [apply find_none|].
  induction l as [|a l IH]; simpl; intros H; [reflexivity|].
  rewrite (H a (or_introl eq_refl)). apply IH.
  intros y Hy. apply H. right. exact Hy.
Qed.

Lemma head_filter (P : A -> bool) (l : list A) :
  head (List.filter P l) = List.find P l.
Proof.
  induction l as [|a l IH]; simpl; [reflexivity|].
  destruct (P a); [reflexivity|exact IH].
Qed.

Lemma filter_all_false (P : A -> bool) (l : list A) :
  (forall y, In y l -> P y = false) -> List.filter P l = [].
Proof.
  induction l as [|a l IH]; simpl; intros H; [reflexivity|].
  rewrite (H a (or_introl eq_refl)). apply IH.
  intros y Hy. apply H. right. exact Hy.
Qed.

Lemma filter_nil_all_false (P : A -> bool) (l : list A) :
  List.filter P l = [] -> forall y, In y l -> P y = false.
Proof.
  intros H y Hy. destruct (P y) eqn:E; [|reflexivity].
  assert (Hin : In y (List.filter P l)) by (apply filter_In; auto).
  rewrite H in Hin. destruct Hin.
Qed.

Lemma filter_singleton (P : A -> bool) (l : list A) (x : A) :
  List.filter P l = [x] <->
  exists l1 l2, l = l1 ++ x :: l2 /\ P x = true /\
                forall y, In y (l1 ++ l2) -> P y = false.
Proof.
  split.
  - induction l as [|a l IH]; simpl; [discriminate|].
    destruct (P a) eqn:Ea.
    + intros [= -> Hl]. exists [], l. repeat split; [exact Ea|].
      simpl. apply filter_nil_all_false. exact Hl.
    + intros H. destruct (IH H) as (l1 & l2 & -> & Hx & Hrest).
      exists (a :: l1), l2. repeat split; [exact Hx|].
      intros y [<-|Hy]; [exact Ea|exact (Hrest y Hy)].
  - intros (l1 & l2 & -> & Hx & Hrest).
    rewrite List.filter_app. simpl. rewrite Hx.
    rewrite !filter_all_false; [reflexivity| |];
      intros y Hy; apply Hrest, in_or_app; auto.
Qed.

End ListFacts.

(** ** The tie-break *)

Section TieBreak.

Lemma first_tagged_in (tags : list pystr) (files : list path) (f : path) :
  first_tagged tags files = Some f -> In f files.
Proof.
  induction tags as [|tag tags IH]; simpl; [discriminate|].
  destruct (List.find _ files) eqn:E.
  - intros [= ->]. apply find_some in E. tauto.
  - exact IH.
Qed.

Lemma tie_break_in (files : list path) (f : path) :
  tie_break files = Some f -> In f files.
Proof.
  unfold tie_break. destruct (first_tagged _ files) eqn:E.
  - intros [= ->]. exact (first_tagged_in _ _ _ E).
  - destruct files; simpl; [discriminate|]. intros [= ->]. left. reflexivity.
Qed.

Lemma tie_break_some (files : list path) :
  files <> [] -> exists f, tie_break files = Some f.
Proof.
  intros Hne. unfold tie_break. destruct (first_tagged _ files).
  - eauto.
  - destruct files; [contradiction|]. simpl. eauto.
Qed.

(** What [tie_break] returns is the candidate the rule designates. *)
Lemma tie_break_chosen (files : list path) (f : path) :
  tie_break files = Some f -> chosen files f.
Proof.
  unfold tie_break, first_tagged.
  change (fun f0 : path => str_in (py "(1)") (path_name f0)) with (has_tag (py "(1)")).
  change (fun f0 : path => str_in (py "(2)") (path_name f0)) with (has_tag (py "(2)")).
  destruct (List.find (has_tag (py "(1)")) files) as [f1|] eqn:E1.
  - intros [= ->]. apply find_first_such in E1. repeat split.
    + intros _. exact E1.
    + intros Hno _. destruct E1 as (l1 & l2 & -> & Hf & _).
      rewrite Hno in Hf; [discriminate|]. apply in_or_app. right. left. reflexivity.
    + intros Hno _. destruct E1 as (l1 & l2 & -> & Hf & _).
      rewrite Hno in Hf; [discriminate|]. apply in_or_app. right. left. reflexivity.
  - pose proof (proj1 (find_none_iff _ _) E1) as Hno1.
    destruct (List.find (has_tag (py "(2)")) files) as [f2|] eqn:E2.
    + intros [= ->]. apply find_first_such in E2. repeat split.
      * intros (g & Hg & Hg1). rewrite (Hno1 g Hg) in Hg1. discriminate.
      * intros _ _. exact E2.
      * intros _ Hno. destruct E2 as (l1 & l2 & -> & Hf & _).
        rewrite Hno in Hf; [discriminate|]. apply in_or_app. right. left. reflexivity.
    + pose proof (proj1 (find_none_iff _ _) E2) as Hno2.
      intros Hh. repeat split.
      * intros (g & Hg & Hg1). rewrite (Hno1 g Hg) in Hg1. discriminate.
      * intros _ (g & Hg & Hg2). rewrite (Hno2 g Hg) in Hg2. discriminate.
      * intros _ _. exact Hh.
Qed.

End TieBreak.

(** ** The source tree: entries and walks *)

Section TreeFacts.

Lemma path_name_snoc (base : path) (x : pystr) : path_name (base ++ [x]) = x.
Proof. unfold path_name. rewrite last_snoc. reflexivity. Qed.

Lemma lookup_entry_some (name : pystr) (entries : list node) (t : node) :
  lookup_entry name entries = Some t -> In t entries /\ node_name t = name.
Proof.
  unfold lookup_entry. intros H. apply find_some in H as [Hin Hname].
  apply bool_decide_eq_true in Hname. auto.
Qed.

Lemma iterdir_in (base : path) (entries : list node) (p : path) (n : node) :
  In (p, n) (iterdir base entries) <-> In n entries /\ p = base ++ [node_name n].
Proof.
  unfold iterdir. rewrite in_map_iff. split.
  - intros (e & [= <- <-] & He). auto.
  - intros [Hn ->]. exists n. auto.
Qed.

(** Everything a walk yields is named by the last component of its
    path, and has no empty name when the folder walked has none. *)
Lemma rglob_in (t : node) :
  forall (base p : path) (n : node),
    In (p, n) (rglob base t) ->
    path_name p = node_name n /\ (names_ok t = true -> names_ok n = true).
Proof.
  induction t as [name|name entries IH] using node_induction;
    intros base p n Hin; simpl in Hin; [destruct Hin|].
  apply in_app_or in Hin as [Hin|Hin].
  - apply iterdir_in in Hin as [Hn ->]. split; [apply path_name_snoc|].
    simpl. intros Hok. apply andb_true_iff in Hok as [_ Hok].
    rewrite forallb_forall in Hok. exact (Hok n Hn).
  - apply in_flat_map in Hin as (e & He & Hin).
    rewrite List.Forall_forall in IH.
    destruct (IH e He _ _ _ Hin) as [Hname Hok]. split; [exact Hname|].
    simpl. intros Hall. apply andb_true_iff in Hall as [_ Hall].
    rewrite forallb_forall in Hall. exact (Hok (Hall e He)).
Qed.


End TreeFacts.

(** ** Folder selection and candidates *)

Section SelectionFacts.

Lemma poster_folders_filter (base : path) (entries : list node) :
  poster_folders base entries = iterdir base (List.filter is_poster_dir entries).
Proof.
  unfold poster_folders, iterdir.
  induction entries as [|e entries IH]; simpl; [reflexivity|].
  rewrite path_name_snoc. fold (is_poster_dir e).
  destruct (is_poster_dir e); simpl; rewrite IH; reflexivity.
Qed.

(** The two cases of the folder selection. *)
Lemma target_folder_cases (base : path) (entries : list node) (folder_type : pystr) :
  (exists p, horizontal_posters_case entries p /\
             target_folder base entries folder_type
             = Some (base ++ [node_name p], p)) \/
  ((~ exists p, horizontal_posters_case entries p) /\
   target_folder base entries folder_type = by_type base entries folder_type).
Proof.
  unfold target_folder, horizontal_posters_case. fold (by_type base entries folder_type).
  rewrite poster_folders_filter.
  destruct (List.filter is_poster_dir entries) as [|p [|q l]] eqn:E; simpl.
  - right. split; [|reflexivity]. intros (p & Hp & _).
    apply filter_singleton in Hp. rewrite E in Hp. discriminate.
  - rewrite path_name_snoc. apply filter_singleton in E.
    destruct (str_in (py "Horizontal Posters") (node_name p)) eqn:Eh.
    + left. exists p. auto.
    + right. split; [|reflexivity]. intros (p' & Hp' & Hh).
      assert (p' = p) as ->.
      { apply filter_singleton in Hp'. apply filter_singleton in E.
        rewrite Hp' in E. congruence. }
      congruence.
  - right. split; [|reflexivity]. intros (p' & Hp' & _).
    apply filter_singleton in Hp'. rewrite E in Hp'. discriminate.
Qed.

(** A directory called ["Poster"] rules the special case out. *)
Lemma poster_dir_no_special_case (entries : list node) (name : pystr) (es : list node) :
  lookup_entry (py "Poster") entries = Some (Dir name es) ->
  ~ exists p, horizontal_posters_case entries p.
Proof.
  intros Hl (p & (l1 & l2 & -> & Hp & Hrest) & Hh).
  apply lookup_entry_some in Hl as [Hin Hname]. simpl in Hname. subst name.
  assert (Hd : is_poster_dir (Dir (py "Poster") es) = true) by reflexivity.
  apply in_app_or in Hin as [Hin|[Hin|Hin]].
  - rewrite Hrest in Hd; [discriminate|]. apply in_or_app. auto.
  - subst p. vm_compute in Hh. discriminate.
  - rewrite Hrest in Hd; [discriminate|]. apply in_or_app. auto.
Qed.

Lemma matching_files_in (title : pystr) (target : path * node) (f : path) :
  In f (matching_files title target) <->
  exists n, In (f, n) (rglob target.1 target.2) /\ is_match title (f, n) = true.
Proof.
  unfold matching_files. rewrite in_map_iff. split.
  - intros ([f' n] & <- & Hin). apply filter_In in Hin. exists n. exact Hin.
  - intros (n & Hin & Hm). exists (f, n). split; [reflexivity|].
    apply filter_In. auto.
Qed.

(** With a title whose cleaned form is empty every file is a
    candidate. *)
Lemma matching_files_empty_key (title : pystr) (target : path * node) :
  clean_string title = [] -> matching_files title target = files_under target.
Proof.
  intros Hk. unfold matching_files, files_under. f_equal.
  apply filter_ext. intros [p n]. unfold is_match. simpl.
  rewrite Hk, str_in_nil. apply andb_true_r.
Qed.

(** The search, once the distributor folder is known to be a
    directory. *)
Lemma find_image_in_dir (w : world) (title distributor folder_type name : pystr)
    (entries : list node) :
  lookup_entry distributor (source w) = Some (Dir name entries) ->
  find_image w title distributor folder_type =
  match target_folder (source_dir w ++ [distributor]) entries folder_type with
  | Some target => Returned (tie_break (matching_files title target))
  | None => Returned None
  end.
Proof.
  intros Hd. unfold find_image. rewrite Hd.
  destruct (target_folder _ entries folder_type); reflexivity.
Qed.

End SelectionFacts.

(** ** The resolver *)

(** C1: when the distributor folder has a folder ["Poster"], a file [f]
    below it whose cleaned name contains the cleaned title, and no other
    file below it that matches, [find_image] for the category
    ["Poster"] returns the path of [f]. *)
Theorem find_image_single_match (w : world) (title distributor name : pystr)
    (entries : list node) (poster : node) (f : path) (n : node) :
  lookup_entry distributor (source w) = Some (Dir name entries) ->
  lookup_entry (py "Poster") entries = Some poster ->
  In (f, n) (rglob ((source_dir w ++ [distributor]) ++ [py "Poster"]) poster) ->
  is_file n = true ->
  str_in (clean_string title) (clean_string (path_name f)) = true ->
  (forall f' n',
      In (f', n') (rglob ((source_dir w ++ [distributor]) ++ [py "Poster"]) poster) ->
      is_match title (f', n') = true -> f' = f) ->
  find_image w title distributor (py "Poster") = Returned (Some f).
Proof.
  intros Hd Hp Hin Hfile Hsub Huniq.
  destruct poster as [pname|pname pentries]; [destruct Hin|].
  rewrite (find_image_in_dir _ _ _ _ _ _ Hd).
  destruct (target_folder_cases (source_dir w ++ [distributor]) entries (py "Poster"))
    as [(p & Hcase & _)|[_ ->]].
  { exfalso. apply (poster_dir_no_special_case _ _ _ Hp). eauto. }
  unfold by_type. rewrite Hp.
  set (target := ((source_dir w ++ [distributor]) ++ [py "Poster"], Dir pname pentries)).
  assert (Hf : In f (matching_files title target)).
  { apply matching_files_in. exists n. split; [exact Hin|].
    unfold is_match. simpl. rewrite Hfile, Hsub. reflexivity. }
  destruct (tie_break_some (matching_files title target)) as [f0 Hf0].
  { intros E. rewrite E in Hf. destruct Hf. }
  rewrite Hf0. do 2 f_equal.
  apply tie_break_in, matching_files_in in Hf0 as (n0 & Hin0 & Hm0).
  exact (Huniq _ _ Hin0 Hm0).
Qed.

Lemma find_image_single_match_witness :
  find_image scenario_world (py "Title A") (py "DistX") (py "Poster")
  = Returned (Some [py "Movies"; py "DistX"; py "Poster"; py "title-a-final.jpg"]).
Proof.
  apply (find_image_single_match scenario_world (py "Title A") (py "DistX") (py "DistX")
           [Dir (py "Poster") [File (py "title-a-final.jpg")]]
           (Dir (py "Poster") [File (py "title-a-final.jpg")])
           [py "Movies"; py "DistX"; py "Poster"; py "title-a-final.jpg"]
           (File (py "title-a-final.jpg"))).
  - reflexivity.
  - reflexivity.
  - left. reflexivity.
  - reflexivity.
  - vm_compute. reflexivity.
  - intros f' n' [E|[]] _. inversion E. reflexivity.
Defined.

(** C2: whenever the candidate list is not empty, [find_image] returns
    the first candidate whose file name contains ["(1)"] if there is
    one, otherwise the first whose file name contains ["(2)"] if there
    is one, otherwise the first candidate; with the candidates
    ["X(2).jpg"], ["X(1).jpg"], ["X.jpg"] for the title ["X"] it
    returns ["X(1).jpg"]. *)
Theorem find_image_tie_break :
  (forall (w : world) (title distributor folder_type name : pystr)
          (entries : list node) (target : path * node),
      lookup_entry distributor (source w) = Some (Dir name entries) ->
      target_folder (source_dir w ++ [distributor]) entries folder_type = Some target ->
      matching_files title target <> [] ->
      exists f,
        find_image w title distributor folder_type = Returned (Some f) /\
        chosen (matching_files title target) f) /\
  matching_files (py "X")
    ([py "Movies"; py "D"; py "Poster"],
     Dir (py "Poster") [File (py "X(2).jpg"); File (py "X(1).jpg"); File (py "X.jpg")])
  = [[py "Movies"; py "D"; py "Poster"; py "X(2).jpg"];
     [py "Movies"; py "D"; py "Poster"; py "X(1).jpg"];
     [py "Movies"; py "D"; py "Poster"; py "X.jpg"]] /\
  find_image tie_break_world (py "X") (py "D") (py "Poster")
  = Returned (Some [py "Movies"; py "D"; py "Poster"; py "X(1).jpg"]).
Proof.
  split; [|split; vm_compute; reflexivity].
  intros w title distributor folder_type name entries target Hd Ht Hne.
  rewrite (find_image_in_dir _ _ _ _ _ _ Hd), Ht.
  destruct (tie_break_some _ Hne) as [f Hf].
  exists f. rewrite Hf. split; [reflexivity|].
  apply tie_break_chosen. exact Hf.
Qed.

Lemma find_image_tie_break_witness :
  exists f,
    find_image tie_break_world (py "X") (py "D") (py "Poster") = Returned (Some f) /\
    chosen (matching_files (py "X")
              ([py "Movies"; py "D"; py "Poster"],
               Dir (py "Poster")
                   [File (py "X(2).jpg"); File (py "X(1).jpg"); File (py "X.jpg")])) f.
Proof.
  apply (proj1 find_image_tie_break tie_break_world (py "X") (py "D") (py "Poster")
           (py "D")
           [Dir (py "Poster") [File (py "X(2).jpg"); File (py "X(1).jpg"); File (py "X.jpg")]]).
  - reflexivity.
  - reflexivity.
  - vm_compute. discriminate.
Defined.

Lemma only_poster_dir_unique (entries : list node) (p q : node) :
  only_poster_dir entries p -> only_poster_dir entries q -> p = q.
Proof.
  intros Hp Hq. apply filter_singleton in Hp. apply filter_singleton in Hq.
  rewrite Hp in Hq. congruence.
Qed.

(** C3: when exactly one directory of the distributor folder has
    ["Poster"] in its name and that name contains
    ["Horizontal Posters"], [find_image] searches that directory
    whatever the category; in every other case it searches the entry
    named after the category. *)
Theorem find_image_folder_selection (w : world)
    (title distributor folder_type name : pystr) (entries : list node) :
  lookup_entry distributor (source w) = Some (Dir name entries) ->
  (forall p,
      horizontal_posters_case entries p ->
      find_image w title distributor folder_type =
      Returned (tie_break (matching_files title
                  ((source_dir w ++ [distributor]) ++ [node_name p], p)))) /\
  ((~ exists p, horizontal_posters_case entries p) ->
   find_image w title distributor folder_type =
   match lookup_entry folder_type entries with
   | Some t =>
       Returned (tie_break (matching_files title
                   ((source_dir w ++ [distributor]) ++ [folder_type], t)))
   | None => Returned None
   end).
Proof.
  intros Hd. rewrite (find_image_in_dir _ _ _ _ _ _ Hd).
  destruct (target_folder_cases (source_dir w ++ [distributor]) entries folder_type)
    as [(p0 & Hcase0 & ->)|[Hno ->]]; split.
  - intros p Hcase.
    rewrite (only_poster_dir_unique _ _ _ (proj1 Hcase) (proj1 Hcase0)). reflexivity.
  - intros Hno. exfalso. apply Hno. eauto.
  - intros p Hcase. exfalso. apply Hno. eauto.
  - intros _. unfold by_type. destruct (lookup_entry folder_type entries); reflexivity.
Qed.

Lemma find_image_folder_selection_witness :
  find_image horizontal_world (py "X") (py "D") (py "Still") =
  Returned (tie_break (matching_files (py "X")
              (([py "Movies"] ++ [py "D"]) ++ [py "Horizontal Posters Extra"],
               Dir (py "Horizontal Posters Extra") [File (py "X.jpg")]))).
Proof.
  apply (proj1 (find_image_folder_selection horizontal_world (py "X") (py "D") (py "Still")
                  (py "D")
                  [File (py "notes.txt");
                   Dir (py "Horizontal Posters Extra") [File (py "X.jpg")]]
                  eq_refl)
               (Dir (py "Horizontal Posters Extra") [File (py "X.jpg")])).
  split.
  - exists [File (py "notes.txt")], []. repeat split.
    intros n [<-|[]]. reflexivity.
  - vm_compute. reflexivity.
Defined.

(** The special case at work: the category ["Still"] is served from the
    folder of horizontal posters. *)
Example find_image_still_in_horizontal_posters :
  find_image horizontal_world (py "X") (py "D") (py "Still") =
  Returned (Some [py "Movies"; py "D"; py "Horizontal Posters Extra"; py "X.jpg"]).
Proof. vm_compute. reflexivity. Qed.

(** C10: for a title whose cleaned form is empty, every file below the
    selected folder is a candidate, [find_image] returns the tie-break
    of all of them, and it returns a file whenever there is one; the
    title ["!!!"] is such a title. *)
Theorem find_image_empty_key :
  (forall (w : world) (title distributor folder_type name : pystr)
          (entries : list node) (target : path * node),
      clean_string title = [] ->
      lookup_entry distributor (source w) = Some (Dir name entries) ->
      target_folder (source_dir w ++ [distributor]) entries folder_type = Some target ->
      matching_files title target = files_under target /\
      find_image w title distributor folder_type
      = Returned (tie_break (files_under target)) /\
      (files_under target <> [] ->
       exists f,
         find_image w title distributor folder_type = Returned (Some f) /\
         In f (files_under target) /\ chosen (files_under target) f)) /\
  strip (py "!!!") = py "!!!" /\
  clean_string (py "!!!") = [].
Proof.
  split; [|split; vm_compute; reflexivity].
  intros w title distributor folder_type name entries target Hk Hd Ht.
  rewrite (find_image_in_dir _ _ _ _ _ _ Hd), Ht.
  rewrite (matching_files_empty_key _ _ Hk).
  split; [reflexivity|]. split; [reflexivity|].
  intros Hne. destruct (tie_break_some _ Hne) as [f Hf].
  exists f. rewrite Hf. split; [reflexivity|].
  split; [exact (tie_break_in _ _ Hf)|exact (tie_break_chosen _ _ Hf)].
Qed.

Lemma find_image_empty_key_witness :
  find_image tie_break_world (py "!!!") (py "D") (py "Poster")
  = Returned (tie_break (files_under
       ([py "Movies"; py "D"; py "Poster"],
        Dir (py "Poster") [File (py "X(2).jpg"); File (py "X(1).jpg"); File (py "X.jpg")]))).
Proof.
  apply (proj1 find_image_empty_key tie_break_world (py "!!!") (py "D") (py "Poster")
           (py "D")
           [Dir (py "Poster") [File (py "X(2).jpg"); File (py "X(1).jpg"); File (py "X.jpg")]]
           ([py "Movies"; py "D"; py "Poster"],
            Dir (py "Poster") [File (py "X(2).jpg"); File (py "X(1).jpg"); File (py "X.jpg")])
           eq_refl eq_refl eq_refl).
Defined.

(** ** Dictionaries *)

Section DictFacts.

Context {V : Type}.

Lemma dict_get_set (k : pystr) (v : V) (d : list (pystr * V)) :
  dict_get k (dict_set k v d) = Some v.
Proof.
  induction d as [|[k' v'] d IH]; simpl.
  - rewrite bool_decide_eq_true_2; reflexivity.
  - destruct (bool_decide (k' = k)) eqn:E; simpl; rewrite E; [reflexivity|exact IH].
Qed.

End DictFacts.



(** ** Transfer *)

Section TransferFacts.

Variable w : world.

Lemma transfer_spec (src : option path) (distributor folder_type : pystr)
    (st : run_state) :
  exists name st',
    transfer w src distributor folder_type st = Returned (name, st') /\
    movie_data st' = movie_data st /\
    not_found st' = not_found st /\
    calls st' = calls st /\
    copied st' = copied st ++ written w distributor folder_type name /\
    (forall n, name = Some n -> exists p, src = Some p /\ n = path_name p).
Proof.
  unfold transfer, copy_image, ret. destruct src as [p|].
  - destruct (shutil_copy w (attempts st) p _); eexists; eexists;
      (split; [reflexivity|]); simpl; rewrite ?app_nil_r;
      repeat split; try discriminate.
    intros n [= <-]. eauto.
  - eexists; eexists. split; [reflexivity|]. simpl. rewrite app_nil_r.
    repeat split. discriminate.
Qed.

Lemma transfer_and_record_spec (title distributor : pystr)
    (poster_path still_path : option path) (st : run_state) :
  exists poster_name still_name st',
    transfer_and_record w title distributor poster_path still_path st
    = Returned (tt, st') /\
    movie_data st'
    = dict_set title {| Poster := poster_name; Still := still_name |} (movie_data st) /\
    not_found st'
    = (if negb (truthy poster_name) && negb (truthy still_name)
       then dd_append distributor title (not_found st) else not_found st) /\
    calls st' = calls st /\
    copied st' = copied st ++ written w distributor (py "Poster") poster_name
                           ++ written w distributor (py "Still") still_name /\
    (forall n, poster_name = Some n ->
               exists p, poster_path = Some p /\ n = path_name p) /\
    (forall n, still_name = Some n ->
               exists p, still_path = Some p /\ n = path_name p).
Proof.
  unfold transfer_and_record, bind.
  destruct (transfer_spec poster_path distributor (py "Poster") st)
    as (pn & st1 & -> & Hm1 & Hn1 & Hc1 & Hw1 & Hp1).
  destruct (transfer_spec still_path distributor (py "Still") st1)
    as (sn & st2 & -> & Hm2 & Hn2 & Hc2 & Hw2 & Hp2).
  unfold set_movie_data, append_not_found, ret.
  exists pn, sn.
  destruct (negb (truthy pn) && negb (truthy sn)); eexists;
    (split; [reflexivity|]); simpl;
    rewrite ?Hm2, ?Hm1, ?Hn2, ?Hn1, ?Hc2, ?Hc1, ?Hw2, ?Hw1, <- ?app_assoc;
    repeat split; assumption.
Qed.

End TransferFacts.

(** C8: [copy_image] always returns.  When the copy fails, by a
    permission error or by any other error, it returns no file name and
    appends the source path to [copy_errors]; when the copy succeeds it
    returns the name of the source file and leaves [copy_errors] as it
    was.  The rest of the row then runs to its end whatever the copies
    did. *)
Theorem copy_image_outcome (w : world) (src_path : path)
    (distributor folder_type : pystr) (st : run_state) :
  (exists r st',
      copy_image w src_path distributor folder_type st = Returned (r, st') /\
      match shutil_copy w (attempts st) src_path
                        (download_dir w ++ [distributor; folder_type]) with
      | CopyDone =>
          r = Some (path_name src_path) /\
          copy_errors st' = copy_errors st /\
          copied st' = copied st ++ written w distributor folder_type r
      | CopyPermissionError | CopyException =>
          r = None /\
          copy_errors st' = copy_errors st ++ [path_str src_path] /\
          copied st' = copied st
      end /\
      movie_data st' = movie_data st /\ not_found st' = not_found st) /\
  (forall title poster_path still_path,
      exists st', transfer_and_record w title distributor poster_path still_path st
                  = Returned (tt, st')).
Proof.
  split.
  - unfold copy_image.
    destruct (shutil_copy w (attempts st) src_path _); eexists; eexists;
      (split; [reflexivity|]); simpl; auto.
  - intros title poster_path still_path.
    destruct (transfer_and_record_spec w title distributor poster_path still_path st)
      as (_ & _ & st' & H & _).
    exists st'. exact H.
Qed.

(** ** The run *)

Section RunFacts.

Variable w : world.


Lemma resolve_spec (title distributor folder_type : pystr) (st : run_state) :
  resolve w title distributor folder_type st =
  match find_image w title distributor folder_type with
  | Returned (Some p) =>
      Returned (Some p,
                with_calls (calls st ++ [CallFindImage title distributor folder_type]) st)
  | Returned None =>
      Returned (find_image_by_title_only w title distributor folder_type,
                with_calls (calls st ++
                            [CallFindImage title distributor folder_type;
                             CallFindImageByTitleOnly title distributor folder_type]) st)
  | Raised e => Raised e
  end.
Proof.
  unfold resolve, call_find_image, call_find_image_by_title_only, bind,
    record_call, lift, ret.
  destruct (find_image w title distributor folder_type) as [[p|]|e];
    simpl; try reflexivity.
  unfold with_calls. simpl. rewrite <- app_assoc. reflexivity.
Qed.







Lemma resolve_state (title distributor folder_type : pystr) (st st' : run_state)
    (r : option path) :
  resolve w title distributor folder_type st = Returned (r, st') ->
  movie_data st' = movie_data st /\ not_found st' = not_found st /\
  copied st' = copied st /\ copy_errors st' = copy_errors st /\
  (fallback_justified w (calls st) -> fallback_justified w (calls st')).
Proof.
  rewrite resolve_spec.
  destruct (find_image w title distributor folder_type) as [[p|]|e] eqn:E;
    [| |discriminate]; intros [= _ <-]; simpl; repeat split;
    intros Hj t d ft Hin; apply in_app_or in Hin as [Hin|Hin]; auto.
  - destruct Hin as [Hin|[]]. discriminate.
  - destruct Hin as [Hin|[Hin|[]]]; [discriminate|].
    injection Hin as <- <- <-. exact E.
Qed.


Lemma process_row_justified (row : option pystr * option pystr) (st st' : run_state) :
  process_row w row st = Returned (tt, st') ->
  fallback_justified w (calls st) -> fallback_justified w (calls st').
Proof.
  unfold process_row.
  destruct (strip <$> row.1) as [[|tc ts]|]; destruct (strip <$> row.2) as [[|dc ds]|];
    try (unfold append_not_found; intros [= <-]; simpl; tauto).
  unfold process_entry, bind.
  destruct (resolve w (tc :: ts) (dc :: ds) (py "Poster") st) as [[pp st1]|e] eqn:E1;
    [|discriminate].
  destruct (resolve w (tc :: ts) (dc :: ds) (py "Still") st1) as [[sp st2]|e] eqn:E2;
    [|discriminate].
  destruct (transfer_and_record_spec w (tc :: ts) (dc :: ds) pp sp st2)
    as (pn & sn & st3 & -> & _ & _ & Hc & _).
  intros [= <-] Hj. rewrite Hc.
  apply (resolve_state _ _ _ _ _ _ E2), (resolve_state _ _ _ _ _ _ E1), Hj.
Qed.

Lemma for_each_justified (rows : list (option pystr * option pystr)) :
  forall st st',
    for_each (process_row w) rows st = Returned (tt, st') ->
    fallback_justified w (calls st) -> fallback_justified w (calls st').
Proof.
  induction rows as [|row rows IH]; simpl; intros st st'.
  - intros [= <-]. tauto.
  - unfold bind. destruct (process_row w row st) as [[[] st1]|e] eqn:E; [|discriminate].
    intros Hrest Hj. apply (IH _ _ Hrest). exact (process_row_justified _ _ _ E Hj).
Qed.

Lemma head_map_filter {A B} (g : A -> B) (P : A -> bool) (l : list A) :
  head (List.map g (List.filter P l)) = g <$> List.find P l.
Proof.
  induction l as [|a l IH]; simpl; [reflexivity|].
  destruct (P a); [reflexivity|exact IH].
Qed.

End RunFacts.

(** C6: [find_image_by_title_only] looks only at the entry of the
    distributor folder named after the category: it returns the first
    file of the walk of that entry whose cleaned name contains the
    cleaned title, and [None] when the distributor folder or that entry
    is missing or no file matches; in a run, every call of it is made
    with arguments on which [find_image] returned [None]. *)
Theorem find_image_by_title_only_contract (w : world)
    (title distributor folder_type : pystr) :
  (lookup_entry distributor (source w) = None ->
   find_image_by_title_only w title distributor folder_type = None) /\
  (forall name,
      lookup_entry distributor (source w) = Some (File name) ->
      find_image_by_title_only w title distributor folder_type = None) /\
  (forall name entries,
      lookup_entry distributor (source w) = Some (Dir name entries) ->
      lookup_entry folder_type entries = None ->
      find_image_by_title_only w title distributor folder_type = None) /\
  (forall name entries t,
      lookup_entry distributor (source w) = Some (Dir name entries) ->
      lookup_entry folder_type entries = Some t ->
      (forall f,
          find_image_by_title_only w title distributor folder_type = Some f <->
          exists n, first_such (is_match title)
                      (rglob ((source_dir w ++ [distributor]) ++ [folder_type]) t)
                      (f, n)) /\
      (find_image_by_title_only w title distributor folder_type = None <->
       forall e, In e (rglob ((source_dir w ++ [distributor]) ++ [folder_type]) t) ->
                 is_match title e = false)) /\
  (forall df_movies sheet sheet' st,
      process_images w df_movies sheet = Returned (sheet', st) ->
      fallback_justified w (calls st)).
Proof.
  unfold find_image_by_title_only. repeat split.
  - intros ->. reflexivity.
  - intros name ->. reflexivity.
  - intros name entries -> ->. reflexivity.
  - rewrite H, H0. unfold matching_files. simpl. rewrite head_map_filter.
    destruct (List.find _ _) as [[f' n]|] eqn:E; simpl; [|discriminate].
    intros [= <-]. exists n. apply find_first_such. exact E.
  - rewrite H, H0. unfold matching_files. simpl. rewrite head_map_filter.
    intros (n & Hn). apply find_first_such in Hn. rewrite Hn. reflexivity.
  - rewrite H, H0. unfold matching_files. simpl. rewrite head_map_filter.
    destruct (List.find _ _) as [[f' n]|] eqn:E; simpl; [discriminate|].
    intros _. apply find_none_iff. exact E.
  - rewrite H, H0. unfold matching_files. simpl. rewrite head_map_filter.
    intros Hall. apply find_none_iff in Hall. rewrite Hall. reflexivity.
  - intros df_movies sheet sheet' st. unfold process_images.
    destruct (for_each (process_row w) df_movies initial_state) as [[[] st1]|e] eqn:E;
      [|discriminate].
    intros [= _ <-]. apply (for_each_justified w _ _ _ E).
    intros t d ft [].
Qed.

Lemma find_image_by_title_only_contract_witness :
  fallback_justified scenario_world
    [CallFindImage (py "Title A") (py "DistX") (py "Poster");
     CallFindImage (py "Title A") (py "DistX") (py "Still");
     CallFindImageByTitleOnly (py "Title A") (py "DistX") (py "Still")].
Proof.
  apply (proj2 (proj2 (proj2 (proj2
           (find_image_by_title_only_contract scenario_world [] [] []))))
           [(Some (py "Title A"), Some (py "DistX"))] [] []
           (with_calls
              [CallFindImage (py "Title A") (py "DistX") (py "Poster");
               CallFindImage (py "Title A") (py "DistX") (py "Still");
               CallFindImageByTitleOnly (py "Title A") (py "DistX") (py "Still")]
              (with_movie_data
                 [(py "Title A",
                   {| Poster := Some (py "title-a-final.jpg"); Still := None |})]
                 (after_copy []
                    [[py "Downloads"; py "DistX"; py "Poster"; py "title-a-final.jpg"]]
                    initial_state)))).
  vm_compute. reflexivity.
Defined.

(** The fallback does not apply the priority tags: with the three
    candidates of the tie-break example it returns the first one. *)
Example find_image_by_title_only_first_match :
  find_image_by_title_only tie_break_world (py "X") (py "D") (py "Poster")
  = Some [py "Movies"; py "D"; py "Poster"; py "X(2).jpg"].
Proof. vm_compute. reflexivity. Qed.

(** The fallback does not look into the folder of horizontal posters. *)
Example find_image_by_title_only_no_special_case :
  find_image_by_title_only horizontal_world (py "X") (py "D") (py "Still") = None.
Proof. vm_compute. reflexivity. Qed.

(** C7: the code evaluated at a row for which no transfer can succeed
    and yet the title is not recorded.  When the distributor's name is
    that of a regular file of the source directory, the guard of line
    67 lets the search through, [iterdir()] at line 71 raises, and
    neither the row nor the run ends: the title is appended to no list
    of [not_found] and no file is transferred.  When the same
    distributor has no entry at all in the source directory, the guard
    makes the search return [None] and the title is recorded under the
    distributor. *)
Theorem unmatched_title_lost_on_abort :
  find_image file_world (py "Title A") (py "DistX") (py "Poster")
  = Raised NotADirectoryError /\
  process_row file_world (Some (py "Title A"), Some (py "DistX")) initial_state
  = Raised NotADirectoryError /\
  process_images file_world [(Some (py "Title A"), Some (py "DistX"))] scenario_sheet
  = Raised NotADirectoryError /\
  process_row file_world (Some (py "Title A"), Some (py "DistY")) initial_state
  = Returned (tt, with_calls
                    [CallFindImage (py "Title A") (py "DistY") (py "Poster");
                     CallFindImageByTitleOnly (py "Title A") (py "DistY") (py "Poster");
                     CallFindImage (py "Title A") (py "DistY") (py "Still");
                     CallFindImageByTitleOnly (py "Title A") (py "DistY") (py "Still")]
                    (with_movie_data
                       [(py "Title A", {| Poster := None; Still := None |})]
                       (with_not_found [(py "DistY", [py "Title A"])] initial_state))).
Proof. vm_compute. repeat split. Qed.



(** ** The catalog update *)

Section UpdateFacts.

Lemma title_map_from_spec (rows : list sheet_row) :
  forall (i : nat) (m : gmap pystr nat) (k : pystr) (j : nat),
    title_map_from i rows m !! k = Some j ->
    m !! k = Some j \/
    exists r, rows !! (j - i)%nat = Some r /\ (i <= j)%nat /\
              truthy (cellB r) = true /\ clean_string_opt (cellB r) = k.
Proof.
  induction rows as [|r rows IH]; simpl; intros i m k j H; [left; exact H|].
  destruct (IH _ _ _ _ H) as [Hm|(r0 & Hr0 & Hle & Ht & Hk)].
  - destruct (truthy (cellB r)) eqn:Et; [|left; exact Hm].
    apply lookup_insert_Some in Hm as [[Hk <-]|[_ Hm]]; [|left; exact Hm].
    right. exists r. replace (i - i)%nat with 0%nat by lia. auto.
  - right. exists r0. replace (j - i)%nat with (S (j - S i)) by lia.
    simpl. repeat split; auto. lia.
Qed.

Lemma sheet_title_map_spec (rows : list sheet_row) (k : pystr) (j : nat) :
  sheet_title_map rows !! k = Some j ->
  exists r, rows !! j = Some r /\ truthy (cellB r) = true /\
            clean_string_opt (cellB r) = k.
Proof.
  intros H. apply title_map_from_spec in H as [H|(r & Hr & _ & Ht & Hk)].
  - rewrite lookup_empty in H. discriminate.
  - rewrite Nat.sub_0_r in Hr. eauto.
Qed.

Variable rows : list sheet_row.
Variable movie_data : list (pystr * images).
Variable i : nat.
Variable r : sheet_row.
Hypothesis Hrow : rows !! i = Some r.

Lemma write_images_updated (cur : list sheet_row) (item : pystr * images) :
  In item movie_data ->
  (exists r', cur !! i = Some r' /\ updated_from movie_data r r') ->
  exists r', write_images (sheet_title_map rows) cur item !! i = Some r' /\
             updated_from movie_data r r'.
Proof.
  intros Hitem (r' & Hcur & Hb & Hd & He). unfold write_images.
  destruct (sheet_title_map rows !! clean_string item.1) as [j|] eqn:Ej;
    [|exists r'; repeat split; assumption].
  destruct (decide (j = i)) as [->|Hne].
  - apply sheet_title_map_spec in Ej as (r0 & Hr0 & Ht & Hk).
    rewrite Hrow in Hr0. injection Hr0 as <-.
    destruct item as [k imgs]. simpl in *.
    destruct (truthy (Poster imgs)) eqn:EP; destruct (truthy (Still imgs)) eqn:ES;
      rewrite ?list_lookup_alter_eq, ?Hcur; simpl; eexists;
      (split; [reflexivity|]); repeat split; simpl; auto;
      right; exists k, imgs; auto.
  - exists r'.
    destruct (truthy (Poster item.2)); destruct (truthy (Still item.2));
      rewrite ?list_lookup_alter_ne by exact Hne; repeat split; assumption.
Qed.

Lemma fold_write_images_updated (items : list (pystr * images)) :
  forall cur,
    (forall x, In x items -> In x movie_data) ->
    (exists r', cur !! i = Some r' /\ updated_from movie_data r r') ->
    exists r', fold_left (write_images (sheet_title_map rows)) items cur !! i = Some r' /\
               updated_from movie_data r r'.
Proof.
  induction items as [|item items IH]; simpl; intros cur Hsub Hcur; [exact Hcur|].
  apply IH.
  - intros x Hx. apply Hsub. right. exact Hx.
  - apply write_images_updated; [apply Hsub; left; reflexivity|exact Hcur].
Qed.

Lemma update_images_updated :
  exists r', update_images rows movie_data !! i = Some r' /\
             updated_from movie_data r r'.
Proof.
  unfold update_images. apply fold_write_images_updated.
  - auto.
  - exists r. unfold updated_from. auto.
Qed.

End UpdateFacts.

Lemma update_images_length (rows : list sheet_row) (movie_data : list (pystr * images)) :
  length (update_images rows movie_data) = length rows.
Proof.
  unfold update_images.
  assert (H : forall m cur,
             length (fold_left (write_images m) movie_data cur) = length cur).
  { intros m. induction movie_data as [|item items IH]; simpl; intros cur;
      [reflexivity|].
    rewrite IH. unfold write_images.
    destruct (m !! clean_string item.1); [|reflexivity].
    destruct (truthy (Poster item.2)); destruct (truthy (Still item.2));
      rewrite ?length_alter; reflexivity. }
  apply H.
Qed.

(** C9: [update_images] keeps every row in its place with its title.
    A row whose cleaned title is the cleaned form of no key of
    [movie_data], or whose title cell is empty, is left as it was; and
    in any row the cell of a category is left as it was when no key
    with that cleaned title holds a file name for the category.  A cell
    that did change holds a file name of such a key. *)
Theorem update_images_frame (rows : list sheet_row)
    (movie_data : list (pystr * images)) (i : nat) (r : sheet_row) :
  rows !! i = Some r ->
  exists r',
    update_images rows movie_data !! i = Some r' /\
    cellB r' = cellB r /\
    ((forall k imgs, In (k, imgs) movie_data ->
                     clean_string k <> clean_string_opt (cellB r)) ->
     r' = r) /\
    (truthy (cellB r) = false -> r' = r) /\
    ((forall k imgs, In (k, imgs) movie_data ->
                     clean_string k = clean_string_opt (cellB r) ->
                     truthy (Poster imgs) = false) ->
     cellD r' = cellD r) /\
    ((forall k imgs, In (k, imgs) movie_data ->
                     clean_string k = clean_string_opt (cellB r) ->
                     truthy (Still imgs) = false) ->
     cellE r' = cellE r) /\
    updated_from movie_data r r'.
Proof.
  intros Hrow.
  destruct (update_images_updated rows movie_data i r Hrow) as (r' & Hr' & Hup).
  exists r'. split; [exact Hr'|]. pose proof Hup as (Hb & Hd & He).
  assert (HD : (forall k imgs, In (k, imgs) movie_data ->
                  clean_string k = clean_string_opt (cellB r) ->
                  truthy (Poster imgs) = false) -> cellD r' = cellD r).
  { intros Hno. destruct Hd as [Hd|(k & imgs & Hin & _ & Hk & Ht & _)]; [exact Hd|].
    rewrite (Hno k imgs Hin Hk) in Ht. discriminate. }
  assert (HE : (forall k imgs, In (k, imgs) movie_data ->
                  clean_string k = clean_string_opt (cellB r) ->
                  truthy (Still imgs) = false) -> cellE r' = cellE r).
  { intros Hno. destruct He as [He|(k & imgs & Hin & _ & Hk & Ht & _)]; [exact He|].
    rewrite (Hno k imgs Hin Hk) in Ht. discriminate. }
  assert (Hsame : cellD r' = cellD r -> cellE r' = cellE r -> r' = r).
  { destruct r, r'. simpl in *. congruence. }
  repeat split; try assumption.
  - intros Hno. apply Hsame; [apply HD|apply HE];
      intros k imgs Hin Hk; destruct (Hno k imgs Hin Hk).
  - intros Hempty. apply Hsame.
    + destruct Hd as [Hd|(k & imgs & _ & Ht & _)]; [exact Hd|congruence].
    + destruct He as [He|(k & imgs & _ & Ht & _)]; [exact He|congruence].
Qed.

Lemma update_images_frame_witness :
  exists r',
    update_images scenario_sheet scenario_results !! 1%nat = Some r' /\
    r' = {| cellB := Some (py "Title B"); cellD := None; cellE := None |}.
Proof.
  destruct (update_images_frame scenario_sheet scenario_results 1
              {| cellB := Some (py "Title B"); cellD := None; cellE := None |}
              eq_refl)
    as (r' & Hr' & _ & _ & _ & HD & HE & _).
  exists r'. split; [exact Hr'|].
  vm_compute in Hr'. injection Hr' as <-. reflexivity.
Defined.

(** The update at work on the scenario: the poster found for the first
    film is written in its row, the second row is as it was. *)
Example update_images_scenario :
  update_images scenario_sheet scenario_results
  = [ {| cellB := Some (py "Title A"); cellD := Some (py "title-a-final.jpg");
         cellE := None |};
      {| cellB := Some (py "Title B"); cellD := None; cellE := None |} ].
Proof. vm_compute. reflexivity. Qed.

(** * Further properties *)

(** ** The normaliser and the matching test *)

Lemma clean_string_app (a b : pystr) :
  clean_string (a ++ b) = clean_string a ++ clean_string b.
Proof.
  rewrite !clean_string_unfold. unfold lower, re_sub_nonword.
  rewrite List.filter_app, flat_map_app. reflexivity.
Qed.

(** X1: on text of the tabulated blocks, a title that occurs verbatim
    in a file name passes the matching test of lines 83 and 107: its
    cleaned form occurs in the cleaned file name. *)
Theorem verbatim_title_is_matched (title name : pystr) :
  forallb tabulated title = true ->
  forallb tabulated name = true ->
  str_in title name = true ->
  str_in (clean_string title) (clean_string name) = true.
Proof.
  intros _ _ H. apply str_in_spec in H as (l & r & ->).
  rewrite !clean_string_app. apply str_in_spec.
  exists (clean_string l), (clean_string r). reflexivity.
Qed.

Lemma verbatim_title_is_matched_witness :
  str_in (clean_string (py "Title A")) (clean_string (py "My Title A (final).jpg"))
  = true.
Proof.
  apply verbatim_title_is_matched; vm_compute; reflexivity.
Defined.

Lemma plain_char_table :
  forallb plain_char (List.map N.of_nat (seq 0 384)) = true.
Proof. vm_compute. reflexivity. Qed.

(** X2: on text of the tabulated blocks without U+0130, a cleaned
    string holds only word characters that lowercasing leaves alone;
    none of them is white space or an ASCII capital. *)
Theorem clean_string_canonical (s : pystr) (c : codepoint) :
  forallb tabulated s = true ->
  ~ In 0x130 s ->
  In c (clean_string s) ->
  is_word c = true /\ lower_char c = [c] /\
  isspace c = false /\ in_range 0x41 0x5A c = false.
Proof.
  intros _ Hno Hc. destruct (clean_string_chars s c Hno Hc) as [Hw Hl].
  split; [exact Hw|]. split; [exact Hl|].
  assert (Hin : In c (List.map N.of_nat (seq 0 384))).
  { apply is_word_bound in Hw. apply in_map_iff. exists (N.to_nat c).
    split; [apply N2Nat.id|]. apply in_seq. lia. }
  pose proof plain_char_table as Ht. rewrite forallb_forall in Ht.
  specialize (Ht c Hin). unfold plain_char in Ht.
  rewrite Hw, (bool_decide_eq_true_2 _ Hl) in Ht. simpl in Ht.
  apply andb_true_iff in Ht as [H1 H2].
  apply negb_true_iff in H1. apply negb_true_iff in H2. auto.
Qed.

Lemma clean_string_canonical_witness :
  is_word 0x6D = true /\ lower_char 0x6D = [0x6D] /\
  isspace 0x6D = false /\ in_range 0x41 0x5A 0x6D = false.
Proof.
  apply (clean_string_canonical (py "The Movie!") 0x6D).
  - vm_compute. reflexivity.
  - vm_compute. intuition discriminate.
  - vm_compute. tauto.
Defined.

(** ** The resolver: errors, soundness, completeness *)

Section ResolverMore.

Variable w : world.

Lemma rglob_prefix (t : node) :
  forall (base p : path) (n : node),
    In (p, n) (rglob base t) -> exists rest, p = base ++ rest /\ rest <> [].
Proof.
  induction t as [name|name entries IH] using node_induction;
    intros base p n Hin; simpl in Hin; [destruct Hin|].
  apply in_app_or in Hin as [Hin|Hin].
  - apply iterdir_in in Hin as [_ ->]. exists [node_name n]. split; [reflexivity|].
    discriminate.
  - apply in_flat_map in Hin as (e & He & Hin).
    rewrite List.Forall_forall in IH.
    destruct (IH e He _ _ _ Hin) as (rest & -> & Hrest).
    exists (node_name e :: rest). rewrite <- app_assoc. split; [reflexivity|].
    discriminate.
Qed.

Lemma target_folder_path (base : path) (entries : list node) (folder_type : pystr)
    (target : path * node) :
  target_folder base entries folder_type = Some target ->
  exists name, target.1 = base ++ [name].
Proof.
  destruct (target_folder_cases base entries folder_type)
    as [(p & _ & ->)|[_ ->]].
  - intros [= <-]. simpl. eauto.
  - unfold by_type. destruct (lookup_entry folder_type entries); [|discriminate].
    intros [= <-]. simpl. eauto.
Qed.

End ResolverMore.

(** X4: a path [find_image] returns lies below the distributor folder,
    at least two components deep, and is the path of a regular file of
    the walk of the folder searched whose cleaned name contains the
    cleaned title. *)
Theorem find_image_sound (w : world) (title distributor folder_type : pystr)
    (f : path) :
  find_image w title distributor folder_type = Returned (Some f) ->
  exists name entries target n rest,
    lookup_entry distributor (source w) = Some (Dir name entries) /\
    target_folder (source_dir w ++ [distributor]) entries folder_type = Some target /\
    In (f, n) (rglob target.1 target.2) /\
    is_file n = true /\
    path_name f = node_name n /\
    str_in (clean_string title) (clean_string (path_name f)) = true /\
    f = (source_dir w ++ [distributor]) ++ rest /\ (2 <= length rest)%nat.
Proof.
  unfold find_image.
  destruct (lookup_entry distributor (source w)) as [[name|name entries]|] eqn:Hd;
    try discriminate.
  destruct (target_folder _ entries folder_type) as [target|] eqn:Ht; [|discriminate].
  intros [= Hf]. apply tie_break_in, matching_files_in in Hf as (n & Hin & Hm).
  unfold is_match in Hm. simpl in Hm. apply andb_true_iff in Hm as [Hfile Hsub].
  destruct (rglob_in _ _ _ _ Hin) as [Hname _].
  destruct (rglob_prefix _ _ _ _ Hin) as (rest & Hrest & Hne).
  destruct (target_folder_path _ _ _ _ Ht) as (tname & Htn).
  exists name, entries, target, n, (tname :: rest).
  repeat split; try assumption.
  - rewrite Hrest, Htn, <- app_assoc. reflexivity.
  - destruct rest; [contradiction|]. simpl. lia.
Qed.

Lemma find_image_sound_witness :
  exists name entries target n rest,
    lookup_entry (py "D") (source tie_break_world) = Some (Dir name entries) /\
    target_folder (source_dir tie_break_world ++ [py "D"]) entries (py "Poster")
    = Some target /\
    In ([py "Movies"; py "D"; py "Poster"; py "X(1).jpg"], n)
       (rglob target.1 target.2) /\
    is_file n = true /\
    path_name [py "Movies"; py "D"; py "Poster"; py "X(1).jpg"] = node_name n /\
    str_in (clean_string (py "X"))
           (clean_string (path_name [py "Movies"; py "D"; py "Poster"; py "X(1).jpg"]))
    = true /\
    [py "Movies"; py "D"; py "Poster"; py "X(1).jpg"]
    = (source_dir tie_break_world ++ [py "D"]) ++ rest /\ (2 <= length rest)%nat.
Proof.
  apply (find_image_sound tie_break_world (py "X") (py "D") (py "Poster")).
  vm_compute. reflexivity.
Defined.

(** X5: when the distributor folder is a directory and the folder to
    search exists, [find_image] returns [None] exactly when no file of
    the walk passes the matching test. *)
Theorem find_image_none_iff (w : world) (title distributor folder_type name : pystr)
    (entries : list node) (target : path * node) :
  lookup_entry distributor (source w) = Some (Dir name entries) ->
  target_folder (source_dir w ++ [distributor]) entries folder_type = Some target ->
  (find_image w title distributor folder_type = Returned None <->
   forall e, In e (rglob target.1 target.2) -> is_match title e = false).
Proof.
  intros Hd Ht. rewrite (find_image_in_dir _ _ _ _ _ _ Hd), Ht. split.
  - intros [= Hn] e He. destruct (is_match title e) eqn:Em; [|reflexivity].
    destruct (tie_break_some (matching_files title target)) as [f Hf].
    + intros E. assert (Hin : In e.1 (matching_files title target)).
      { apply matching_files_in. exists e.2. destruct e. simpl. auto. }
      rewrite E in Hin. destruct Hin.
    + congruence.
  - intros Hall. f_equal.
    destruct (tie_break (matching_files title target)) as [f|] eqn:Hf; [|reflexivity].
    apply tie_break_in, matching_files_in in Hf as (n & Hin & Hm).
    rewrite (Hall _ Hin) in Hm. discriminate.
Qed.

Lemma find_image_none_iff_witness :
  find_image scenario_world (py "Title B") (py "DistX") (py "Poster") = Returned None <->
  forall e,
    In e (rglob ([py "Movies"; py "DistX"; py "Poster"],
                 Dir (py "Poster") [File (py "title-a-final.jpg")]).1
                ([py "Movies"; py "DistX"; py "Poster"],
                 Dir (py "Poster") [File (py "title-a-final.jpg")]).2) ->
    is_match (py "Title B") e = false.
Proof.
  apply (find_image_none_iff scenario_world (py "Title B") (py "DistX") (py "Poster")
           (py "DistX") [Dir (py "Poster") [File (py "title-a-final.jpg")]]);
    reflexivity.
Defined.

(** X6: the fallback search can find a file after [find_image] returned
    [None] only in the special case of the folder of horizontal
    posters; in every other case it searches the folder [find_image]
    has searched already. *)
Theorem fallback_only_in_special_case (w : world)
    (title distributor folder_type : pystr) (f : path) :
  find_image w title distributor folder_type = Returned None ->
  find_image_by_title_only w title distributor folder_type = Some f ->
  exists name entries p,
    lookup_entry distributor (source w) = Some (Dir name entries) /\
    horizontal_posters_case entries p.
Proof.
  unfold find_image_by_title_only.
  destruct (lookup_entry distributor (source w)) as [[name|name entries]|] eqn:Hd;
    try discriminate.
  rewrite (find_image_in_dir _ _ _ _ _ _ Hd).
  destruct (lookup_entry folder_type entries) as [t|] eqn:Ht; [|discriminate].
  destruct (target_folder_cases (source_dir w ++ [distributor]) entries folder_type)
    as [(p & Hcase & _)|[_ ->]]; [eauto|].
  unfold by_type. rewrite Ht. intros [= Hn] Hf. exfalso.
  destruct (tie_break_some
              (matching_files title ((source_dir w ++ [distributor]) ++ [folder_type], t)))
    as [f0 Hf0]; [|congruence].
  intros E. rewrite E in Hf. discriminate.
Qed.

(** X7: in the special case of the folder of horizontal posters the
    result of [find_image] does not depend on the category: the poster
    and the still of a title are the same file. *)
Theorem special_case_ignores_category (w : world)
    (title distributor name : pystr) (entries : list node) (p : node)
    (folder_type1 folder_type2 : pystr) :
  lookup_entry distributor (source w) = Some (Dir name entries) ->
  horizontal_posters_case entries p ->
  find_image w title distributor folder_type1
  = find_image w title distributor folder_type2.
Proof.
  intros Hd Hcase. rewrite !(find_image_in_dir _ _ _ _ _ _ Hd).
  destruct (target_folder_cases (source_dir w ++ [distributor]) entries folder_type1)
    as [(p1 & Hc1 & ->)|[Hno _]]; [|destruct Hno; eauto].
  destruct (target_folder_cases (source_dir w ++ [distributor]) entries folder_type2)
    as [(p2 & Hc2 & ->)|[Hno _]]; [|destruct Hno; eauto].
  rewrite (only_poster_dir_unique _ _ _ (proj1 Hc1) (proj1 Hc2)). reflexivity.
Qed.

Lemma special_case_ignores_category_witness :
  find_image horizontal_world (py "X") (py "D") (py "Poster")
  = find_image horizontal_world (py "X") (py "D") (py "Still").
Proof.
  apply (special_case_ignores_category horizontal_world (py "X") (py "D") (py "D")
           [File (py "notes.txt"); Dir (py "Horizontal Posters Extra") [File (py "X.jpg")]]
           (Dir (py "Horizontal Posters Extra") [File (py "X.jpg")])).
  - reflexivity.
  - split.
    + exists [File (py "notes.txt")], []. repeat split.
      intros n [<-|[]]. reflexivity.
    + vm_compute. reflexivity.
Defined.

Lemma fallback_only_in_special_case_witness :
  exists name entries p,
    lookup_entry (py "D") (source fallback_world) = Some (Dir name entries) /\
    horizontal_posters_case entries p.
Proof.
  apply (fallback_only_in_special_case fallback_world (py "X") (py "D") (py "Still")
           [py "Movies"; py "D"; py "Still"; py "X.jpg"]);
    vm_compute; reflexivity.
Defined.

(** ** The run: rows, accounting, abort *)

Section StripFacts.

Lemma lstrip_nil_iff (s : pystr) : lstrip s = [] <-> forallb isspace s = true.
Proof.
  induction s as [|c s IH]; simpl; [tauto|].
  destruct (isspace c); simpl; [exact IH|]. split; discriminate.
Qed.

Lemma strip_nil_iff (s : pystr) : strip s = [] <-> forallb isspace s = true.
Proof.
  unfold strip, rstrip. split.
  - intros H. apply (f_equal (@rev N)) in H. rewrite rev_involutive in H.
    simpl in H. apply lstrip_nil_iff in H. rewrite forallb_forall in H.
    apply lstrip_nil_iff. destruct (lstrip s) as [|c l] eqn:E; [reflexivity|].
    exfalso. assert (Hc : isspace c = true).
    { apply H. apply in_rev. rewrite rev_involutive. left. reflexivity. }
    destruct s as [|c0 s0]; [discriminate|]. simpl in E.
    revert E. clear -Hc. revert c0. induction s0 as [|c1 s1 IH]; intros c0 E.
    + simpl in E. destruct (isspace c0) eqn:E0; [discriminate|].
      injection E as <- _. congruence.
    + simpl in E. destruct (isspace c0) eqn:E0.
      * apply (IH c1). exact E.
      * injection E as <- _. congruence.
  - intros H. rewrite (proj2 (lstrip_nil_iff s) H). reflexivity.
Qed.

Lemma blank_strip (cell : option pystr) :
  blank cell = true <-> truthy (strip <$> cell) = false.
Proof.
  destruct cell as [s|]; simpl; [|tauto].
  rewrite <- strip_nil_iff. destruct (strip s); split; congruence.
Qed.

End StripFacts.

Section DictMore.

Context {V : Type}.

Lemma dict_get_set_ne (k k' : pystr) (v : V) (d : list (pystr * V)) :
  k <> k' -> dict_get k' (dict_set k v d) = dict_get k' d.
Proof.
  intros Hne. induction d as [|[k0 v0] d IH]; simpl.
  - rewrite bool_decide_eq_false_2; [reflexivity|exact Hne].
  - destruct (bool_decide (k0 = k)) eqn:E; simpl.
    + apply bool_decide_eq_true in E. subst k0.
      rewrite (bool_decide_eq_false_2 _ Hne). reflexivity.
    + rewrite IH. reflexivity.
Qed.

Lemma dict_set_in (k : pystr) (v : V) (d : list (pystr * V)) (k' : pystr) (v' : V) :
  In (k', v') (dict_set k v d) -> v' = v \/ In (k', v') d.
Proof.
  induction d as [|[k0 v0] d IH]; simpl.
  - intros [[= _ <-]|[]]. left. reflexivity.
  - destruct (bool_decide (k0 = k)); simpl.
    + intros [[= _ <-]|H]; auto.
    + intros [H|H]; auto. destruct (IH H); auto.
Qed.

Lemma dict_get_set_some (k k' : pystr) (v : V) (d : list (pystr * V)) :
  is_Some (dict_get k' (dict_set k v d)) <-> k' = k \/ is_Some (dict_get k' d).
Proof.
  destruct (decide (k = k')) as [<-|Hne].
  - rewrite dict_get_set. split; eauto.
  - rewrite (dict_get_set_ne _ _ _ _ Hne). split; [auto|].
    intros [E|H]; [congruence|exact H].
Qed.

End DictMore.

Section RunMore.

Variable w : world.

Lemma process_row_valid (row : option pystr * option pystr) (t d : pystr) :
  valid_row row = Some (t, d) -> process_row w row = process_entry w t d.
Proof.
  unfold valid_row, process_row.
  destruct (strip <$> row.1) as [[|tc ts]|]; destruct (strip <$> row.2) as [[|dc ds]|];
    try discriminate.
  intros [= <- <-]. reflexivity.
Qed.

Lemma process_row_invalid (row : option pystr * option pystr) :
  valid_row row = None ->
  process_row w row
  = append_not_found (or_else (strip <$> row.2) (py "UNDEFINED DISTRIBUTOR"))
                     (or_else (strip <$> row.1) (py "Undefined title")).
Proof.
  unfold valid_row, process_row.
  destruct (strip <$> row.1) as [[|tc ts]|]; destruct (strip <$> row.2) as [[|dc ds]|];
    try discriminate; reflexivity.
Qed.

Lemma valid_row_none_iff (row : option pystr * option pystr) :
  valid_row row = None <-> blank row.1 = true \/ blank row.2 = true.
Proof.
  rewrite !blank_strip. unfold valid_row.
  destruct (strip <$> row.1) as [[|tc ts]|]; destruct (strip <$> row.2) as [[|dc ds]|];
    simpl; split; try tauto; try discriminate; intros [H|H]; discriminate.
Qed.

Lemma or_else_shown (cell : option pystr) (placeholder : pystr) :
  or_else (strip <$> cell) placeholder = shown cell placeholder.
Proof.
  unfold shown. destruct (blank cell) eqn:E.
  - apply blank_strip in E. destruct (strip <$> cell) as [[|c s]|]; try reflexivity.
    discriminate.
  - destruct cell as [s|]; [|discriminate]. simpl in *.
    destruct (strip s) eqn:Es; [|reflexivity].
    apply strip_nil_iff in Es. congruence.
Qed.

Lemma transfer_accounting (src : option path) (d ft : pystr) (st st' : run_state)
    (name : option pystr) :
  transfer w src d ft st = Returned (name, st') ->
  (attempts st <= attempts st' <= S (attempts st))%nat /\
  (attempts st' + length (copied st) + length (copy_errors st)
   = attempts st + length (copied st') + length (copy_errors st'))%nat /\
  (forall e, In e (copy_errors st) -> In e (copy_errors st')).
Proof.
  unfold transfer, copy_image, ret. destruct src as [p|].
  - destruct (shutil_copy w (attempts st) p _); intros [= <- <-]; simpl;
      rewrite ?length_app; simpl; repeat split; try lia; auto;
      intros e He; apply in_or_app; auto.
  - intros [= <- <-]. repeat split; auto; lia.
Qed.

Lemma resolve_attempts (t d ft : pystr) (st st' : run_state) (r : option path) :
  resolve w t d ft st = Returned (r, st') -> attempts st' = attempts st.
Proof.
  rewrite resolve_spec. destruct (find_image w t d ft) as [[p|]|e];
    [| |discriminate]; intros [= _ <-]; reflexivity.
Qed.

(** What a row with a title and a distributor does to the state. *)
Lemma process_entry_effect (t d : pystr) (st st' : run_state) :
  process_entry w t d st = Returned (tt, st') ->
  exists pn sn,
    movie_data st' = dict_set t {| Poster := pn; Still := sn |} (movie_data st) /\
    copied st' = copied st ++ written w d (py "Poster") pn
                           ++ written w d (py "Still") sn /\
    not_found st'
    = (if negb (truthy pn) && negb (truthy sn)
       then dd_append d t (not_found st) else not_found st) /\
    (attempts st <= attempts st' <= attempts st + 2)%nat /\
    (attempts st' + length (copied st) + length (copy_errors st)
     = attempts st + length (copied st') + length (copy_errors st'))%nat /\
    (forall e, In e (copy_errors st) -> In e (copy_errors st')).
Proof.
  unfold process_entry, bind.
  destruct (resolve w t d (py "Poster") st) as [[pp st1]|e] eqn:E1; [|discriminate].
  destruct (resolve w t d (py "Still") st1) as [[sp st2]|e] eqn:E2; [|discriminate].
  destruct (resolve_state _ _ _ _ _ _ _ E1) as (Hm1 & Hn1 & Hc1 & He1 & _).
  destruct (resolve_state _ _ _ _ _ _ _ E2) as (Hm2 & Hn2 & Hc2 & He2 & _).
  pose proof (resolve_attempts _ _ _ _ _ _ E1) as Ha1.
  pose proof (resolve_attempts _ _ _ _ _ _ E2) as Ha2.
  unfold transfer_and_record, bind.
  destruct (transfer_spec w pp d (py "Poster") st2)
    as (pn & st3 & T1 & Hm3 & Hn3 & _ & Hc3 & _).
  destruct (transfer_spec w sp d (py "Still") st3)
    as (sn & st4 & T2 & Hm4 & Hn4 & _ & Hc4 & _).
  rewrite T1, T2.
  destruct (transfer_accounting _ _ _ _ _ _ T1) as (Hb3 & Hq3 & Hk3).
  destruct (transfer_accounting _ _ _ _ _ _ T2) as (Hb4 & Hq4 & Hk4).
  unfold set_movie_data, append_not_found, ret.
  intros Hrun. exists pn, sn.
  assert (Hcop : copied st4 = copied st ++ written w d (py "Poster") pn
                                      ++ written w d (py "Still") sn).
  { rewrite Hc4, Hc3, Hc2, Hc1, <- app_assoc. reflexivity. }
  rewrite Hc2, Hc1, He2, He1 in Hq3. rewrite Ha2, Ha1 in Hq3, Hb3.
  assert (Herr : forall e, In e (copy_errors st) -> In e (copy_errors st4)).
  { intros e He. apply Hk4, Hk3. rewrite He2, He1. exact He. }
  destruct (negb (truthy pn) && negb (truthy sn)); injection Hrun as <-; simpl;
    rewrite ?Hm4, ?Hm3, ?Hm2, ?Hm1, ?Hn4, ?Hn3, ?Hn2, ?Hn1;
    (split; [reflexivity|]); (split; [exact Hcop|]); (split; [reflexivity|]);
    (split; [lia|]); (split; [lia|exact Herr]).
Qed.





End RunMore.

(** X8: a row whose title or distributor is missing or blank triggers
    no search and no copy and sets no entry of [movie_data]; it adds
    one title to [not_found], the stripped title or ["Undefined title"],
    under the stripped distributor or ["UNDEFINED DISTRIBUTOR"]. *)
Theorem blank_row_recorded (w : world) (row : option pystr * option pystr)
    (st : run_state) :
  blank row.1 = true \/ blank row.2 = true ->
  exists st',
    process_row w row st = Returned (tt, st') /\
    calls st' = calls st /\ copied st' = copied st /\
    copy_errors st' = copy_errors st /\ attempts st' = attempts st /\
    movie_data st' = movie_data st /\
    not_found st'
    = dd_append (shown row.2 (py "UNDEFINED DISTRIBUTOR"))
                (shown row.1 (py "Undefined title")) (not_found st).
Proof.
  intros Hb. apply valid_row_none_iff in Hb.
  rewrite (process_row_invalid w row Hb), !or_else_shown.
  unfold append_not_found. eexists. split; [reflexivity|].
  simpl. repeat split.
Qed.

Lemma blank_row_recorded_witness :
  exists st',
    process_row scenario_world (Some (py "   "), Some (py " DistX ")) initial_state
    = Returned (tt, st') /\
    not_found st' = [(py "DistX", [py "Undefined title"])].
Proof.
  destruct (blank_row_recorded scenario_world (Some (py "   "), Some (py " DistX "))
              initial_state)
    as (st' & Hrun & _ & _ & _ & _ & _ & Hnf).
  - left. reflexivity.
  - exists st'. split; [exact Hrun|]. rewrite Hnf. vm_compute. reflexivity.
Defined.

Section WholeRun.

Variable w : world.




(** An invariant of the rows is an invariant of the run. *)
Lemma for_each_invariant (I : run_state -> Prop)
    (rows : list (option pystr * option pystr)) :
  (forall row st st',
      In row rows -> I st -> process_row w row st = Returned (tt, st') -> I st') ->
  forall st st',
    for_each (process_row w) rows st = Returned (tt, st') -> I st -> I st'.
Proof.
  induction rows as [|row rows IH]; simpl; intros Hstep st st'.
  - intros [= <-]. tauto.
  - unfold bind. destruct (process_row w row st) as [[[] st1]|e] eqn:E; [|discriminate].
    intros Hrest Hst. apply (IH (fun r s s' Hr => Hstep r s s' (or_intror Hr)) _ _ Hrest).
    exact (Hstep row st st1 (or_introl eq_refl) Hst E).
Qed.

(** What a row does to the state, whatever the row. *)
Lemma process_row_effect (row : option pystr * option pystr) (st st' : run_state) :
  process_row w row st = Returned (tt, st') ->
  (exists t d pn sn,
      valid_row row = Some (t, d) /\
      movie_data st' = dict_set t {| Poster := pn; Still := sn |} (movie_data st) /\
      copied st' = copied st ++ written w d (py "Poster") pn
                             ++ written w d (py "Still") sn /\
      not_found st'
      = (if negb (truthy pn) && negb (truthy sn)
         then dd_append d t (not_found st) else not_found st) /\
      (attempts st <= attempts st' <= attempts st + 2)%nat /\
      (attempts st' + length (copied st) + length (copy_errors st)
       = attempts st + length (copied st') + length (copy_errors st'))%nat) \/
  (valid_row row = None /\
   movie_data st' = movie_data st /\ copied st' = copied st /\
   copy_errors st' = copy_errors st /\ attempts st' = attempts st /\
   not_found st'
   = dd_append (shown row.2 (py "UNDEFINED DISTRIBUTOR"))
               (shown row.1 (py "Undefined title")) (not_found st)).
Proof.
  destruct (valid_row row) as [[t d]|] eqn:Hv.
  - rewrite (process_row_valid w row t d Hv). intros H.
    destruct (process_entry_effect w t d st st' H)
      as (pn & sn & Hm & Hc & Hn & Hb & Hq & _).
    left. exists t, d, pn, sn. auto 10.
  - rewrite (process_row_invalid w row Hv), !or_else_shown.
    unfold append_not_found. intros [= <-]. right. simpl. auto 10.
Qed.

End WholeRun.



(** The run stops on the row whose distributor is a regular file. *)
Example run_aborts_on_file :
  process_images file_world
    [(Some (py "Title B"), Some (py "DistY")); (Some (py "Title A"), Some (py "DistX"))]
    scenario_sheet
  = Raised NotADirectoryError.
Proof. vm_compute. reflexivity. Qed.

Section RunInvariants.

Variable w : world.

Lemma transfer_errors (src : option path) (d ft : pystr) (st st' : run_state)
    (name : option pystr) :
  transfer w src d ft st = Returned (name, st') ->
  copy_errors st' = copy_errors st \/
  exists p k,
    src = Some p /\
    shutil_copy w k p (download_dir w ++ [d; ft]) <> CopyDone /\
    copy_errors st' = copy_errors st ++ [path_str p].
Proof.
  unfold transfer. destruct src as [p|]; [|intros [= _ <-]; left; reflexivity].
  unfold copy_image.
  destruct (shutil_copy w (attempts st) p (download_dir w ++ [d; ft])) eqn:E;
    intros [= _ <-]; simpl; [left; reflexivity| |];
    right; exists p, (attempts st); rewrite E; repeat split; discriminate.
Qed.

Lemma resolve_found (t d ft : pystr) (st st' : run_state) (p : path) :
  resolve w t d ft st = Returned (Some p, st') -> found_for w t d ft p.
Proof.
  rewrite resolve_spec. unfold found_for.
  destruct (find_image w t d ft) as [[q|]|e]; [| |discriminate].
  - intros [= -> _]. left. reflexivity.
  - intros [= -> _]. right. split; reflexivity.
Qed.

(** The copy errors a row with a title and a distributor adds. *)
Lemma process_entry_errors (t d : pystr) (st st' : run_state) :
  process_entry w t d st = Returned (tt, st') ->
  exists errs,
    copy_errors st' = copy_errors st ++ errs /\
    (length errs <= 2)%nat /\
    (forall e, In e errs -> failed_copy w t d e).
Proof.
  unfold process_entry, bind.
  destruct (resolve w t d (py "Poster") st) as [[pp st1]|e] eqn:E1; [|discriminate].
  destruct (resolve w t d (py "Still") st1) as [[sp st2]|e] eqn:E2; [|discriminate].
  destruct (resolve_state _ _ _ _ _ _ _ E1) as (_ & _ & _ & He1 & _).
  destruct (resolve_state _ _ _ _ _ _ _ E2) as (_ & _ & _ & He2 & _).
  unfold transfer_and_record, bind.
  destruct (transfer_spec w pp d (py "Poster") st2) as (pn & st3 & T1 & _).
  destruct (transfer_spec w sp d (py "Still") st3) as (sn & st4 & T2 & _).
  rewrite T1, T2.
  assert (H1 : exists errs1,
             copy_errors st3 = copy_errors st ++ errs1 /\ (length errs1 <= 1)%nat /\
             forall e, In e errs1 -> failed_copy w t d e).
  { destruct (transfer_errors _ _ _ _ _ _ T1) as [H|(p & k & -> & Hk & H)].
    - exists []. rewrite H, He2, He1, app_nil_r. split; [reflexivity|].
      split; [simpl; lia|]. intros e [].
    - exists [path_str p]. rewrite H, He2, He1. split; [reflexivity|].
      split; [simpl; lia|]. intros e [<-|[]].
      exists (py "Poster"), p, k. pose proof (resolve_found _ _ _ _ _ _ E1). auto. }
  assert (H2 : exists errs2,
             copy_errors st4 = copy_errors st3 ++ errs2 /\ (length errs2 <= 1)%nat /\
             forall e, In e errs2 -> failed_copy w t d e).
  { destruct (transfer_errors _ _ _ _ _ _ T2) as [H|(p & k & -> & Hk & H)].
    - exists []. rewrite H, app_nil_r. split; [reflexivity|].
      split; [simpl; lia|]. intros e [].
    - exists [path_str p]. rewrite H. split; [reflexivity|].
      split; [simpl; lia|]. intros e [<-|[]].
      exists (py "Still"), p, k. pose proof (resolve_found _ _ _ _ _ _ E2). auto. }
  destruct H1 as (errs1 & Q1 & L1 & F1). destruct H2 as (errs2 & Q2 & L2 & F2).
  unfold set_movie_data, append_not_found, ret. intros Hrun.
  exists (errs1 ++ errs2).
  assert (Hq : copy_errors st' = copy_errors st4).
  { destruct (negb (truthy pn) && negb (truthy sn));
      injection Hrun as <-; reflexivity. }
  rewrite Hq, Q2, Q1, <- app_assoc. split; [reflexivity|].
  split; [rewrite length_app; lia|].
  intros e He. apply in_app_or in He as [He|He]; auto.
Qed.

(** The copy errors a run adds come from its rows, at most two for
    each. *)
Lemma for_each_errors (rows : list (option pystr * option pystr)) :
  forall st st',
    for_each (process_row w) rows st = Returned (tt, st') ->
    exists errs,
      copy_errors st' = copy_errors st ++ errs /\
      (length errs <= 2 * length rows)%nat /\
      (forall e, In e errs ->
                 exists row t d,
                   In row rows /\ valid_row row = Some (t, d) /\ failed_copy w t d e).
Proof.
  induction rows as [|row rows IH]; simpl; intros st st'.
  - intros [= <-]. exists []. rewrite app_nil_r. split; [reflexivity|].
    split; [simpl; lia|]. intros e [].
  - unfold bind. destruct (process_row w row st) as [[[] st1]|e] eqn:E; [|discriminate].
    intros Hrest. destruct (IH _ _ Hrest) as (errs & Hq & Hl & Hf).
    destruct (valid_row row) as [[t d]|] eqn:Hv.
    + rewrite (process_row_valid w row t d Hv) in E.
      destruct (process_entry_errors t d st st1 E) as (errs1 & Hq1 & Hl1 & Hf1).
      exists (errs1 ++ errs). rewrite Hq, Hq1, <- app_assoc. split; [reflexivity|].
      split; [rewrite length_app; lia|].
      intros e He. apply in_app_or in He as [He|He].
      * exists row, t, d. auto.
      * destruct (Hf e He) as (r & t' & d' & Hin & Hr & Hfc). exists r, t', d'. auto.
    + rewrite (process_row_invalid w row Hv) in E. unfold append_not_found in E.
      injection E as <-. exists errs. split; [exact Hq|]. split; [lia|].
      intros e He. destruct (Hf e He) as (r & t' & d' & Hin & Hr & Hfc).
      exists r, t', d'. auto.
Qed.

Lemma written_in (d ft : pystr) (name : option pystr) (p : path) :
  In p (written w d ft name) ->
  exists n, name = Some n /\ p = (download_dir w ++ [d; ft]) ++ [n].
Proof.
  destruct name as [n|]; simpl; [|intros []].
  intros [<-|[]]. eauto.
Qed.

Lemma for_each_keys (rows : list (option pystr * option pystr)) :
  forall st st' t,
    for_each (process_row w) rows st = Returned (tt, st') ->
    is_Some (dict_get t (movie_data st)) \/
    (exists row d, In row rows /\ valid_row row = Some (t, d)) ->
    is_Some (dict_get t (movie_data st')).
Proof.
  induction rows as [|row rows IH]; simpl; intros st st' t.
  - intros [= <-] [H|(row & d & [] & _)]. exact H.
  - unfold bind. destruct (process_row w row st) as [[[] st1]|e] eqn:E; [|discriminate].
    intros Hrest Hk. apply (IH _ _ _ Hrest).
    destruct (process_row_effect w row st st1 E)
      as [(t1 & d1 & pn & sn & Hv & Hm & _)|(Hv & Hm & _)].
    + rewrite Hm. destruct Hk as [Hk|(r & d & [<-|Hin] & Hr)].
      * left. apply dict_get_set_some. auto.
      * left. apply dict_get_set_some. left. congruence.
      * right. eauto.
    + rewrite Hm. destruct Hk as [Hk|(r & d & [<-|Hin] & Hr)].
      * auto.
      * congruence.
      * right. eauto.
Qed.

End RunInvariants.

(** X10: when the distributors of the rows are folder names, every
    entry of [copy_errors] at the end of a run is the source path of a
    file that the run resolved for a row and a category, by [find_image]
    or else by [find_image_by_title_only], and whose copy raised; there
    are at most two entries for each row. *)
Theorem copy_errors_traced (w : world) (rows : list (option pystr * option pystr))
    (sheet sheet' : list sheet_row) (st : run_state) :
  folder_rows rows ->
  process_images w rows sheet = Returned (sheet', st) ->
  (length (copy_errors st) <= 2 * length rows)%nat /\
  (forall e, In e (copy_errors st) ->
             exists row t d,
               In row rows /\ valid_row row = Some (t, d) /\ failed_copy w t d e).
Proof.
  intros _. unfold process_images.
  destruct (for_each (process_row w) rows initial_state) as [[[] st1]|e] eqn:E;
    [|discriminate].
  intros [= _ <-]. destruct (for_each_errors w rows _ _ E) as (errs & Hq & Hl & Hf).
  simpl in Hq. rewrite Hq. auto.
Qed.

Lemma copy_errors_traced_witness :
  exists sheet' st,
    process_images refusing_world scenario_rows scenario_sheet = Returned (sheet', st) /\
    copy_errors st = [py "Movies/DistX/Poster/title-a-final.jpg"] /\
    exists row t d,
      In row scenario_rows /\ valid_row row = Some (t, d) /\
      failed_copy refusing_world t d (py "Movies/DistX/Poster/title-a-final.jpg").
Proof.
  destruct (process_images refusing_world scenario_rows scenario_sheet)
    as [[sheet' st]|e] eqn:E; [|vm_compute in E; discriminate].
  exists sheet', st. split; [reflexivity|].
  assert (Hrows : folder_rows scenario_rows).
  { intros row t d [<-|[<-|[<-|[]]]] Hv; vm_compute in Hv;
      try discriminate; injection Hv as <- <-; reflexivity. }
  destruct (copy_errors_traced refusing_world scenario_rows scenario_sheet sheet' st
              Hrows E) as [_ Hall].
  assert (Herr : copy_errors st = [py "Movies/DistX/Poster/title-a-final.jpg"]).
  { vm_compute in E. injection E as _ <-. reflexivity. }
  split; [exact Herr|].
  apply Hall. rewrite Herr. left. reflexivity.
Defined.

(** X11: every file a run writes is written to
    [download_dir / distributor / category / name], where the
    distributor is the stripped distributor of a row of the catalog and
    the category is ["Poster"] or ["Still"]. *)
Theorem copied_paths_mirror (w : world) (rows : list (option pystr * option pystr))
    (sheet sheet' : list sheet_row) (st : run_state) (p : path) :
  process_images w rows sheet = Returned (sheet', st) ->
  In p (copied st) ->
  exists row t d ft n,
    In row rows /\ valid_row row = Some (t, d) /\
    (ft = py "Poster" \/ ft = py "Still") /\
    p = (download_dir w ++ [d; ft]) ++ [n].
Proof.
  unfold process_images.
  destruct (for_each (process_row w) rows initial_state) as [[[] st1]|e] eqn:E;
    [|discriminate].
  intros [= _ <-]. revert p.
  apply (for_each_invariant w
           (fun s => forall p, In p (copied s) ->
              exists row t d ft n,
                In row rows /\ valid_row row = Some (t, d) /\
                (ft = py "Poster" \/ ft = py "Still") /\
                p = (download_dir w ++ [d; ft]) ++ [n])
           rows) with (st := initial_state); [|exact E|intros p []].
  intros row s s' Hrow Hs Hstep p Hp.
  destruct (process_row_effect w row s s' Hstep)
    as [(t & d & pn & sn & Hv & _ & Hc & _)|(_ & _ & Hc & _)];
    rewrite Hc in Hp; [|auto].
  apply in_app_or in Hp as [Hp|Hp]; [auto|].
  apply in_app_or in Hp as [Hp|Hp]; apply written_in in Hp as (n & _ & ->);
    exists row, t, d; [exists (py "Poster")|exists (py "Still")]; exists n; auto.
Qed.

Lemma copied_paths_mirror_witness :
  exists row t d ft n,
    In row scenario_rows /\ valid_row row = Some (t, d) /\
    (ft = py "Poster" \/ ft = py "Still") /\
    [py "Downloads"; py "DistX"; py "Poster"; py "title-a-final.jpg"]
    = (download_dir scenario_world ++ [d; ft]) ++ [n].
Proof.
  destruct (process_images scenario_world scenario_rows scenario_sheet)
    as [[sheet' st]|e] eqn:E; [|vm_compute in E; discriminate].
  apply (copied_paths_mirror scenario_world scenario_rows scenario_sheet sheet' st _ E).
  vm_compute in E. injection E as _ <-. left. reflexivity.
Defined.

(** X12: at the end of a run the keys of [movie_data] are exactly the
    stripped titles of the rows that have a title and a distributor. *)
Theorem movie_data_keys (w : world) (rows : list (option pystr * option pystr))
    (sheet sheet' : list sheet_row) (st : run_state) (t : pystr) :
  process_images w rows sheet = Returned (sheet', st) ->
  (is_Some (dict_get t (movie_data st)) <->
   exists row d, In row rows /\ valid_row row = Some (t, d)).
Proof.
  unfold process_images.
  destruct (for_each (process_row w) rows initial_state) as [[[] st1]|e] eqn:E;
    [|discriminate].
  intros [= _ <-]. split.
  - revert t.
    apply (for_each_invariant w
             (fun s => forall t, is_Some (dict_get t (movie_data s)) ->
                exists row d, In row rows /\ valid_row row = Some (t, d))
             rows) with (st := initial_state); [|exact E|].
    + intros row s s' Hrow Hs Hstep t Ht.
      destruct (process_row_effect w row s s' Hstep)
        as [(t1 & d1 & pn & sn & Hv & Hm & _)|(_ & Hm & _)];
        rewrite Hm in Ht; [|auto].
      apply dict_get_set_some in Ht as [->|Ht]; eauto.
    + intros t [x Hx]. discriminate.
  - intros H. apply (for_each_keys w rows _ _ t E). right. exact H.
Qed.

Lemma movie_data_keys_witness :
  exists sheet' st,
    process_images scenario_world scenario_rows scenario_sheet = Returned (sheet', st) /\
    (is_Some (dict_get (py "Title A") (movie_data st)) <->
     exists row d, In row scenario_rows /\ valid_row row = Some (py "Title A", d)).
Proof.
  destruct (process_images scenario_world scenario_rows scenario_sheet)
    as [[sheet' st]|e] eqn:E; [|vm_compute in E; discriminate].
  exists sheet', st. split; [reflexivity|].
  exact (movie_data_keys scenario_world scenario_rows scenario_sheet sheet' st
           (py "Title A") E).
Defined.

(** X13: every file name a run writes into the sheet names a file the
    run has written: a name that changes column D is that of a file
    written into a folder ["Poster"] below the download directory, and
    a name that changes column E that of one written into a folder
    ["Still"]. *)
Theorem sheet_names_are_copies (w : world) (rows : list (option pystr * option pystr))
    (sheet sheet' : list sheet_row) (st : run_state) (i : nat) (r r' : sheet_row) :
  process_images w rows sheet = Returned (sheet', st) ->
  sheet !! i = Some r ->
  sheet' !! i = Some r' ->
  (cellD r' <> cellD r ->
   exists d n, cellD r' = Some n /\
               In ((download_dir w ++ [d; py "Poster"]) ++ [n]) (copied st)) /\
  (cellE r' <> cellE r ->
   exists d n, cellE r' = Some n /\
               In ((download_dir w ++ [d; py "Still"]) ++ [n]) (copied st)).
Proof.
  unfold process_images.
  destruct (for_each (process_row w) rows initial_state) as [[[] st1]|e] eqn:E;
    [|discriminate].
  intros [= <- <-] Hr Hr'.
  assert (Hinv : names_are_copies w st1).
  { apply (for_each_invariant w (names_are_copies w) rows) with (st := initial_state);
      [|exact E|intros k imgs n []].
    intros row s s' _ Hs Hstep k imgs n Hin.
    destruct (process_row_effect w row s s' Hstep)
      as [(t & d & pn & sn & _ & Hm & Hc & _)|(_ & Hm & Hc & _)];
      rewrite Hc; rewrite Hm in Hin; [|exact (Hs k imgs n Hin)].
    apply dict_set_in in Hin as [->|Hin].
    - simpl. split; intros ->; exists d; apply in_or_app; right; simpl; auto.
      apply in_or_app. right. simpl. auto.
    - destruct (Hs k imgs n Hin) as [HP HS].
      split; intros Hn; [destruct (HP Hn) as [d0 H0]|destruct (HS Hn) as [d0 H0]];
        exists d0; apply in_or_app; auto. }
  destruct (update_images_updated sheet (movie_data st1) i r Hr)
    as (r0 & Hr0 & _ & Hd & He).
  rewrite Hr' in Hr0. injection Hr0 as <-. split; intros Hne.
  - destruct Hd as [Hd|(k & imgs & Hin & _ & _ & Ht & Hv)]; [contradiction|].
    destruct (Poster imgs) as [n|] eqn:EP; [|discriminate].
    destruct (proj1 (Hinv k imgs n Hin) EP) as [d Hcopy]. exists d, n. auto.
  - destruct He as [He|(k & imgs & Hin & _ & _ & Ht & Hv)]; [contradiction|].
    destruct (Still imgs) as [n|] eqn:ES; [|discriminate].
    destruct (proj2 (Hinv k imgs n Hin) ES) as [d Hcopy]. exists d, n. auto.
Qed.

Lemma sheet_names_are_copies_witness :
  exists d n,
    Some (py "title-a-final.jpg") = Some n /\
    In ((download_dir scenario_world ++ [d; py "Poster"]) ++ [n])
       [[py "Downloads"; py "DistX"; py "Poster"; py "title-a-final.jpg"]].
Proof.
  destruct (process_images scenario_world scenario_rows scenario_sheet)
    as [[sheet' st]|e] eqn:E; [|vm_compute in E; discriminate].
  pose proof (sheet_names_are_copies scenario_world scenario_rows scenario_sheet
                sheet' st 0
                {| cellB := Some (py "Title A"); cellD := None; cellE := None |}
                {| cellB := Some (py "Title A"); cellD := Some (py "title-a-final.jpg");
                   cellE := None |} E eq_refl) as H.
  vm_compute in E. injection E as <- <-.
  destruct (H eq_refl) as [HD _]. apply HD. discriminate.
Defined.

(** ** The catalog update: duplicates, written values, repetition *)

Section UpdateMore.

Lemma title_map_from_last (rows : list sheet_row) :
  forall (i0 : nat) (m : gmap pystr nat) (k : pystr),
    title_map_from i0 rows m !! k =
    match last_index k rows with
    | Some j => Some (i0 + j)%nat
    | None => m !! k
    end.
Proof.
  induction rows as [|r rows IH]; intros i0 m k; simpl; [reflexivity|].
  rewrite IH. destruct (last_index k rows) as [j|].
  - f_equal. lia.
  - destruct (truthy (cellB r)); simpl; [|reflexivity].
    destruct (bool_decide (clean_string_opt (cellB r) = k)) eqn:E.
    + apply bool_decide_eq_true in E. subst k. rewrite lookup_insert_eq.
      f_equal. lia.
    + apply bool_decide_eq_false in E. rewrite lookup_insert_ne; [reflexivity|exact E].
Qed.

(** [sheet_title_map] sends a cleaned title to the last row that has
    it. *)
Lemma sheet_title_map_last (rows : list sheet_row) (k : pystr) :
  sheet_title_map rows !! k = last_index k rows.
Proof.
  unfold sheet_title_map. rewrite title_map_from_last, lookup_empty.
  destruct (last_index k rows); reflexivity.
Qed.

Lemma last_index_some (k : pystr) (rows : list sheet_row) (j : nat) :
  last_index k rows = Some j <->
  exists r, rows !! j = Some r /\ truthy (cellB r) = true /\
            clean_string_opt (cellB r) = k /\
            forall j' r', (j < j')%nat -> rows !! j' = Some r' ->
                          truthy (cellB r') = true ->
                          clean_string_opt (cellB r') <> k.
Proof.
  revert j. induction rows as [|r rows IH]; intros j; simpl.
  - split; [discriminate|]. intros (r & Hr & _). discriminate.
  - destruct (last_index k rows) as [j0|] eqn:El.
    + destruct (proj1 (IH j0) eq_refl) as (r0 & Hr0 & Ht0 & Hk0 & Hlast0). split.
      * intros [= <-]. exists r0. repeat split; auto.
        intros [|j'] r' Hlt Hr'; [lia|]. simpl in Hr'.
        apply (Hlast0 j' r'); [lia|exact Hr'].
      * intros (r1 & Hr1 & Ht1 & Hk1 & Hlast1). destruct j as [|j].
        -- exfalso. apply (Hlast1 (S j0) r0); auto. lia.
        -- assert (Hj : Some j0 = Some j); [|congruence].
           apply IH. exists r1. repeat split; auto.
           intros j' r' Hlt Hr'. apply (Hlast1 (S j') r'); [lia|exact Hr'].
    + assert (Hnone : forall j' r', rows !! j' = Some r' ->
                truthy (cellB r') = true -> clean_string_opt (cellB r') <> k).
      { intros j' r' Hr' Ht' Hk'.
        assert (Hs : last_index k rows = Some j' \/ exists j2, (j' < j2)%nat /\
                       last_index k rows = Some j2).
        { clear IH El. revert j' Hr'. induction rows as [|r2 rows2 IH2];
            intros j' Hr'; [discriminate|]. simpl.
          destruct j' as [|j']; simpl in Hr'.
          - injection Hr' as ->. destruct (last_index k rows2) as [j3|].
            + right. exists (S j3). split; [lia|reflexivity].
            + rewrite Ht', (bool_decide_eq_true_2 _ Hk'). left. reflexivity.
          - destruct (IH2 j' Hr') as [->|(j2 & Hlt & ->)].
            + left. reflexivity.
            + right. exists (S j2). split; [lia|reflexivity]. }
        destruct Hs as [Hs|(j2 & _ & Hs)]; congruence. }
      split.
      * destruct (truthy (cellB r) && bool_decide (clean_string_opt (cellB r) = k))
          eqn:E; [|discriminate].
        intros [= <-]. apply andb_true_iff in E as [Ht Hk].
        apply bool_decide_eq_true in Hk. exists r. repeat split; auto.
        intros [|j'] r' Hlt Hr'; [lia|]. simpl in Hr'. exact (Hnone j' r' Hr').
      * intros (r1 & Hr1 & Ht1 & Hk1 & _). destruct j as [|j]; simpl in Hr1.
        -- injection Hr1 as ->. rewrite Ht1, (bool_decide_eq_true_2 _ Hk1).
           reflexivity.
        -- destruct (Hnone j r1 Hr1 Ht1 Hk1).
Qed.

Lemma write_images_lookup (m : gmap pystr nat) (cur : list sheet_row)
    (item : pystr * images) (i : nat) :
  write_images m cur item !! i = (fun r => write_row m i r item) <$> cur !! i.
Proof.
  unfold write_images, write_row.
  destruct (m !! clean_string item.1) as [j|];
    [|destruct (cur !! i); reflexivity].
  destruct (bool_decide (j = i)) eqn:E.
  - apply bool_decide_eq_true in E. subst j.
    destruct (truthy (Poster item.2)); destruct (truthy (Still item.2));
      rewrite ?list_lookup_alter_eq; destruct (cur !! i); reflexivity.
  - apply bool_decide_eq_false in E.
    destruct (truthy (Poster item.2)); destruct (truthy (Still item.2));
      rewrite ?list_lookup_alter_ne by exact E; destruct (cur !! i); reflexivity.
Qed.

Lemma fold_write_images_lookup (m : gmap pystr nat) (items : list (pystr * images)) :
  forall (cur : list sheet_row) (i : nat),
    fold_left (write_images m) items cur !! i
    = (fun r => fold_left (write_row m i) items r) <$> cur !! i.
Proof.
  induction items as [|item items IH]; intros cur i; simpl.
  - destruct (cur !! i); reflexivity.
  - rewrite IH, write_images_lookup. destruct (cur !! i); reflexivity.
Qed.

Lemma write_row_cellB (m : gmap pystr nat) (i : nat) (items : list (pystr * images)) :
  forall r, cellB (fold_left (write_row m i) items r) = cellB r.
Proof.
  induction items as [|item items IH]; intros r; simpl; [reflexivity|].
  rewrite IH. unfold write_row.
  destruct (m !! clean_string item.1) as [j|]; [|reflexivity].
  destruct (bool_decide (j = i)); [|reflexivity].
  destruct (truthy (Poster item.2)); destruct (truthy (Still item.2)); reflexivity.
Qed.

Lemma write_row_elsewhere (m : gmap pystr nat) (i : nat) (items : list (pystr * images)) :
  (forall k, m !! k <> Some i) ->
  forall r, fold_left (write_row m i) items r = r.
Proof.
  intros Hm. induction items as [|item items IH]; intros r; simpl; [reflexivity|].
  rewrite IH. unfold write_row.
  destruct (m !! clean_string item.1) as [j|] eqn:E; [|reflexivity].
  destruct (bool_decide (j = i)) eqn:Ej; [|reflexivity].
  apply bool_decide_eq_true in Ej. subst j. destruct (Hm _ E).
Qed.

Lemma write_row_cellD_kept (m : gmap pystr nat) (i : nat) (items : list (pystr * images)) :
  (forall item, In item items -> m !! clean_string item.1 = Some i ->
                truthy (Poster item.2) = false) ->
  forall r, cellD (fold_left (write_row m i) items r) = cellD r.
Proof.
  induction items as [|item items IH]; intros Hno r; simpl; [reflexivity|].
  rewrite IH by (intros it Hit; apply Hno; right; exact Hit).
  unfold write_row.
  destruct (m !! clean_string item.1) as [j|] eqn:E; [|reflexivity].
  destruct (bool_decide (j = i)) eqn:Ej; [|reflexivity].
  apply bool_decide_eq_true in Ej. subst j.
  rewrite (Hno item (or_introl eq_refl) E).
  destruct (truthy (Still item.2)); reflexivity.
Qed.

Lemma write_row_cellE_kept (m : gmap pystr nat) (i : nat) (items : list (pystr * images)) :
  (forall item, In item items -> m !! clean_string item.1 = Some i ->
                truthy (Still item.2) = false) ->
  forall r, cellE (fold_left (write_row m i) items r) = cellE r.
Proof.
  induction items as [|item items IH]; intros Hno r; simpl; [reflexivity|].
  rewrite IH by (intros it Hit; apply Hno; right; exact Hit).
  unfold write_row.
  destruct (m !! clean_string item.1) as [j|] eqn:E; [|reflexivity].
  destruct (bool_decide (j = i)) eqn:Ej; [|reflexivity].
  apply bool_decide_eq_true in Ej. subst j.
  rewrite (Hno item (or_introl eq_refl) E).
  destruct (truthy (Poster item.2)); reflexivity.
Qed.

End UpdateMore.

(** X14: when two rows of the sheet have the same cleaned title,
    [update_images] never writes into the earlier one: the later row
    has replaced it in [sheet_title_map]. *)
Theorem earlier_duplicate_untouched (rows : list sheet_row)
    (movie_data : list (pystr * images)) (i j : nat) (r rj : sheet_row) :
  rows !! i = Some r ->
  rows !! j = Some rj ->
  (i < j)%nat ->
  truthy (cellB rj) = true ->
  clean_string_opt (cellB rj) = clean_string_opt (cellB r) ->
  update_images rows movie_data !! i = Some r.
Proof.
  intros Hr Hrj Hlt Ht Hk. unfold update_images.
  rewrite fold_write_images_lookup, Hr. simpl. f_equal.
  apply write_row_elsewhere. intros k Hm.
  rewrite sheet_title_map_last in Hm.
  apply last_index_some in Hm as (r0 & Hr0 & _ & Hk0 & Hlast).
  rewrite Hr in Hr0. injection Hr0 as <-.
  apply (Hlast j rj Hlt Hrj Ht). congruence.
Qed.

Lemma earlier_duplicate_untouched_witness :
  update_images duplicate_sheet scenario_results !! 0%nat
  = Some {| cellB := Some (py "Title A"); cellD := None; cellE := None |}.
Proof.
  apply (earlier_duplicate_untouched duplicate_sheet scenario_results 0 1
           {| cellB := Some (py "Title A"); cellD := None; cellE := None |}
           {| cellB := Some (py "title-a!"); cellD := None; cellE := None |});
    try reflexivity. lia.
Defined.

(** The poster found for ["Title A"] goes to the later of the two rows
    with that cleaned title. *)
Example update_images_duplicate_rows :
  update_images duplicate_sheet scenario_results
  = [ {| cellB := Some (py "Title A"); cellD := None; cellE := None |};
      {| cellB := Some (py "title-a!"); cellD := Some (py "title-a-final.jpg");
         cellE := None |} ].
Proof. vm_compute. reflexivity. Qed.

(** X15: the file name [movie_data] holds for a title and a category
    ends up in the sheet: it is in the cell of that category of the
    last row with the cleaned title, provided no later item of
    [movie_data] with the same cleaned title holds a file name for the
    category. *)
Theorem last_result_is_written (rows : list sheet_row)
    (l1 l2 : list (pystr * images)) (k : pystr) (imgs : images)
    (j : nat) (r : sheet_row) :
  rows !! j = Some r ->
  truthy (cellB r) = true ->
  clean_string_opt (cellB r) = clean_string k ->
  (forall j' r', (j < j')%nat -> rows !! j' = Some r' ->
                 truthy (cellB r') = true ->
                 clean_string_opt (cellB r') <> clean_string k) ->
  exists r',
    update_images rows (l1 ++ (k, imgs) :: l2) !! j = Some r' /\
    (truthy (Poster imgs) = true ->
     (forall k' imgs', In (k', imgs') l2 -> clean_string k' = clean_string k ->
                       truthy (Poster imgs') = false) ->
     cellD r' = Poster imgs) /\
    (truthy (Still imgs) = true ->
     (forall k' imgs', In (k', imgs') l2 -> clean_string k' = clean_string k ->
                       truthy (Still imgs') = false) ->
     cellE r' = Still imgs).
Proof.
  intros Hr Ht Hk Hlast.
  assert (Hm : sheet_title_map rows !! clean_string k = Some j).
  { rewrite sheet_title_map_last. apply last_index_some. exists r. auto. }
  assert (Hkey : forall k', sheet_title_map rows !! clean_string k' = Some j ->
                            clean_string k' = clean_string k).
  { intros k' Hk'. rewrite sheet_title_map_last in Hk'.
    apply last_index_some in Hk' as (r0 & Hr0 & _ & Hk0 & _).
    rewrite Hr in Hr0. injection Hr0 as <-. congruence. }
  unfold update_images. rewrite fold_write_images_lookup, Hr. simpl.
  eexists. split; [reflexivity|].
  rewrite fold_left_app. simpl.
  set (r1 := fold_left (write_row (sheet_title_map rows) j) l1 r).
  split; intros Hfile Hlater.
  - rewrite write_row_cellD_kept.
    + unfold write_row. simpl. rewrite Hm, bool_decide_eq_true_2 by reflexivity.
      rewrite Hfile. destruct (truthy (Still imgs)); reflexivity.
    + intros [k' imgs'] Hin Hk'. simpl in *. exact (Hlater k' imgs' Hin (Hkey k' Hk')).
  - rewrite write_row_cellE_kept.
    + unfold write_row. simpl. rewrite Hm, bool_decide_eq_true_2 by reflexivity.
      rewrite Hfile. destruct (truthy (Poster imgs)); reflexivity.
    + intros [k' imgs'] Hin Hk'. simpl in *. exact (Hlater k' imgs' Hin (Hkey k' Hk')).
Qed.

Lemma last_result_is_written_witness :
  exists r',
    update_images duplicate_sheet scenario_results !! 1%nat = Some r' /\
    cellD r' = Some (py "title-a-final.jpg").
Proof.
  destruct (last_result_is_written duplicate_sheet []
              [(py "Title B", {| Poster := None; Still := None |})]
              (py "Title A")
              {| Poster := Some (py "title-a-final.jpg"); Still := None |} 1
              {| cellB := Some (py "title-a!"); cellD := None; cellE := None |})
    as (r' & Hr' & HD & _).
  - reflexivity.
  - reflexivity.
  - vm_compute. reflexivity.
  - intros [|[|j']] r' Hlt Hr'; try lia. discriminate.
  - exists r'. split; [exact Hr'|]. apply HD; [reflexivity|].
    intros k' imgs' [[= <- <-]|[]] _. reflexivity.
Defined.

Section Repetition.

Variable m : gmap pystr nat.
Variable i : nat.

Lemma write_row_cellD_shape (items : list (pystr * images)) :
  (forall r, cellD (fold_left (write_row m i) items r) = cellD r) \/
  (exists c, forall r, cellD (fold_left (write_row m i) items r) = c).
Proof.
  induction items as [|item items IH]; simpl; [left; reflexivity|].
  destruct IH as [IH|[c IH]]; [|right; exists c; intros r; apply IH].
  unfold write_row at 2 4.
  destruct (m !! clean_string item.1) as [j|]; [|left; intros r; apply IH].
  destruct (bool_decide (j = i)); [|left; intros r; apply IH].
  destruct (truthy (Poster item.2)); destruct (truthy (Still item.2)).
  - right. exists (Poster item.2). intros r. rewrite IH. reflexivity.
  - right. exists (Poster item.2). intros r. rewrite IH. reflexivity.
  - left. intros r. rewrite IH. reflexivity.
  - left. intros r. rewrite IH. reflexivity.
Qed.

Lemma write_row_cellE_shape (items : list (pystr * images)) :
  (forall r, cellE (fold_left (write_row m i) items r) = cellE r) \/
  (exists c, forall r, cellE (fold_left (write_row m i) items r) = c).
Proof.
  induction items as [|item items IH]; simpl; [left; reflexivity|].
  destruct IH as [IH|[c IH]]; [|right; exists c; intros r; apply IH].
  unfold write_row at 2 4.
  destruct (m !! clean_string item.1) as [j|]; [|left; intros r; apply IH].
  destruct (bool_decide (j = i)); [|left; intros r; apply IH].
  destruct (truthy (Poster item.2)); destruct (truthy (Still item.2)).
  - right. exists (Still item.2). intros r. rewrite IH. reflexivity.
  - left. intros r. rewrite IH. reflexivity.
  - right. exists (Still item.2). intros r. rewrite IH. reflexivity.
  - left. intros r. rewrite IH. reflexivity.
Qed.

Lemma sheet_row_eq (a b : sheet_row) :
  cellB a = cellB b -> cellD a = cellD b -> cellE a = cellE b -> a = b.
Proof. destruct a, b. simpl. congruence. Qed.

Lemma write_row_twice (items : list (pystr * images)) (r : sheet_row) :
  fold_left (write_row m i) items (fold_left (write_row m i) items r)
  = fold_left (write_row m i) items r.
Proof.
  apply sheet_row_eq.
  - rewrite !write_row_cellB. reflexivity.
  - destruct (write_row_cellD_shape items) as [H|[c H]]; rewrite !H; reflexivity.
  - destruct (write_row_cellE_shape items) as [H|[c H]]; rewrite !H; reflexivity.
Qed.

End Repetition.

Lemma last_index_titles (k : pystr) (rows1 : list sheet_row) :
  forall rows2,
    cellB <$> rows1 = cellB <$> rows2 -> last_index k rows1 = last_index k rows2.
Proof.
  induction rows1 as [|r1 rows1 IH]; intros [|r2 rows2]; simpl;
    try discriminate; [reflexivity|].
  intros [= Hb Hrest]. rewrite (IH _ Hrest), Hb. reflexivity.
Qed.

Lemma update_images_titles (rows : list sheet_row) (movie_data : list (pystr * images)) :
  cellB <$> update_images rows movie_data = cellB <$> rows.
Proof.
  apply list_eq. intros i. rewrite !list_lookup_fmap. unfold update_images.
  rewrite fold_write_images_lookup. destruct (rows !! i) as [r|]; simpl; [|reflexivity].
  rewrite write_row_cellB. reflexivity.
Qed.

(** X16: applying the same results a second time changes nothing:
    [update_images] on the rows it has produced gives those rows
    again. *)
Theorem update_images_twice (rows : list sheet_row) (movie_data : list (pystr * images)) :
  update_images (update_images rows movie_data) movie_data
  = update_images rows movie_data.
Proof.
  assert (Hm : sheet_title_map (update_images rows movie_data) = sheet_title_map rows).
  { apply map_eq. intros k. rewrite !sheet_title_map_last.
    apply last_index_titles, update_images_titles. }
  apply list_eq. intros i. unfold update_images at 1. rewrite Hm.
  rewrite fold_write_images_lookup. unfold update_images.
  rewrite fold_write_images_lookup.
  destruct (rows !! i) as [r|]; simpl; [|reflexivity].
  rewrite write_row_twice. reflexivity.
Qed.

(** ** The report *)

Section ReportFacts.

Lemma total_missing_cons (entry : pystr * list pystr) (nf : list (pystr * list pystr)) :
  total_missing (entry :: nf) = (length entry.2 + total_missing nf)%nat.
Proof. reflexivity. Qed.

Lemma total_missing_in (nf : list (pystr * list pystr)) (d : pystr)
    (titles : list pystr) :
  In (d, titles) nf -> (length titles <= total_missing nf)%nat.
Proof.
  induction nf as [|entry nf IH]; [intros []|].
  rewrite total_missing_cons. intros [->|H]; simpl; [lia|].
  specialize (IH H). lia.
Qed.

Lemma total_missing_dict_set (k : pystr) (v : list pystr)
    (nf : list (pystr * list pystr)) :
  (total_missing (dict_set k v nf) + length (bucket k nf)
   = total_missing nf + length v)%nat.
Proof.
  unfold bucket. induction nf as [|[k0 v0] nf IH]; simpl.
  - unfold total_missing. simpl. lia.
  - destruct (bool_decide (k0 = k)); simpl.
    + rewrite !total_missing_cons. simpl. lia.
    + rewrite !total_missing_cons. simpl. lia.
Qed.

Lemma total_missing_dd_append (d t : pystr) (nf : list (pystr * list pystr)) :
  total_missing (dd_append d t nf) = S (total_missing nf).
Proof.
  unfold dd_append. pose proof (total_missing_dict_set d (bucket d nf ++ [t]) nf) as H.
  rewrite length_app in H. simpl in H. lia.
Qed.

End ReportFacts.

(** X17: the report leaves nothing out: every title of [not_found] has
    its line [" - title"] and every path of [copy_errors] its line
    ["- path"]. *)
Theorem report_lists_everything (not_found : list (pystr * list pystr))
    (df : list contact) (copy_errors : list pystr) :
  (forall d titles t,
      In (d, titles) not_found -> In t titles ->
      In (py " - " ++ t) (report_lines not_found df copy_errors)) /\
  (forall e,
      In e copy_errors ->
      In (py "- " ++ e) (report_lines not_found df copy_errors)).
Proof.
  unfold report_lines. split.
  - intros d titles t Hd Ht. apply in_or_app. left.
    pose proof (total_missing_in _ _ _ Hd) as Hle.
    destruct titles as [|t0 titles]; [destruct Ht|]. simpl in Hle.
    destruct (0 <? total_missing not_found)%nat eqn:E;
      [|apply Nat.ltb_ge in E; lia].
    right. apply in_flat_map. exists (d, t0 :: titles). split; [exact Hd|].
    unfold distributor_lines. simpl fst. simpl snd.
    apply in_or_app. right. apply in_or_app. left.
    apply in_map_iff. exists t. auto.
  - intros e He. apply in_or_app. right. unfold error_lines.
    destruct copy_errors as [|e0 errs]; [destruct He|].
    right. apply in_map_iff. exists e. auto.
Qed.

Section ReportRun.

Variable w : world.

Lemma for_each_missing (rows : list (option pystr * option pystr)) :
  forall st st',
    for_each (process_row w) rows st = Returned (tt, st') ->
    (total_missing (not_found st) <= total_missing (not_found st')
     <= total_missing (not_found st) + length rows)%nat /\
    (total_missing (not_found st') = total_missing (not_found st) ->
     (forall row, In row rows -> exists t d, valid_row row = Some (t, d)) /\
     (forall k imgs, In (k, imgs) (movie_data st') ->
                     In (k, imgs) (movie_data st) \/
                     truthy (Poster imgs) = true \/ truthy (Still imgs) = true)).
Proof.
  induction rows as [|row rows IH]; simpl; intros st st'.
  - intros [= <-]. split; [lia|]. intros _. split; [intros row []|auto].
  - unfold bind. destruct (process_row w row st) as [[[] st1]|e] eqn:E; [|discriminate].
    intros Hrest. destruct (IH _ _ Hrest) as [Hb Hz].
    destruct (process_row_effect w row st st1 E)
      as [(t & d & pn & sn & Hv & Hm & _ & Hn & _)|(Hv & Hm & _ & _ & _ & Hn)].
    + destruct (negb (truthy pn) && negb (truthy sn)) eqn:Ec.
      * rewrite Hn, total_missing_dd_append in *. split; [lia|]. intros Heq. lia.
      * rewrite Hn in *. split; [lia|]. intros Heq.
        destruct (Hz Heq) as [Hrows Hdata]. split.
        -- intros r [<-|Hr]; eauto.
        -- intros k imgs Hin. destruct (Hdata k imgs Hin) as [Hold|Hfile]; [|auto].
           rewrite Hm in Hold. apply dict_set_in in Hold as [->|Hold]; [|auto].
           right. simpl. apply andb_false_iff in Ec as [Ec|Ec];
             apply negb_false_iff in Ec; auto.
    + rewrite Hn, total_missing_dd_append in *. split; [lia|]. intros Heq. lia.
Qed.

End ReportRun.

(** X18: the report of a run opens with ["All images were successfully
    found."] only if every row had a title and a distributor and every
    entry of [movie_data] holds a file name; the report is then that
    line followed by the lines of the copy errors. *)
Theorem all_found_report (w : world) (rows : list (option pystr * option pystr))
    (sheet sheet' : list sheet_row) (st : run_state) (df : list contact) :
  process_images w rows sheet = Returned (sheet', st) ->
  total_missing (not_found st) = 0%nat ->
  (forall row, In row rows -> exists t d, valid_row row = Some (t, d)) /\
  (forall k imgs, In (k, imgs) (movie_data st) ->
                  truthy (Poster imgs) = true \/ truthy (Still imgs) = true) /\
  report_lines (not_found st) df (copy_errors st)
  = py "All images were successfully found." :: error_lines (copy_errors st).
Proof.
  unfold process_images.
  destruct (for_each (process_row w) rows initial_state) as [[[] st1]|e] eqn:E;
    [|discriminate].
  intros [= _ <-] Hz. destruct (for_each_missing w rows _ _ E) as [_ Hzero].
  destruct (Hzero Hz) as [Hrows Hdata]. split; [exact Hrows|]. split.
  - intros k imgs Hin. destruct (Hdata k imgs Hin) as [[]|H]. exact H.
  - unfold report_lines. rewrite Hz. reflexivity.
Qed.

Lemma all_found_report_witness :
  exists sheet' st,
    process_images scenario_world [(Some (py " Title A "), Some (py "DistX"))]
                   scenario_sheet = Returned (sheet', st) /\
    report_lines (not_found st) [] (copy_errors st)
    = [py "All images were successfully found."].
Proof.
  destruct (process_images scenario_world [(Some (py " Title A "), Some (py "DistX"))]
              scenario_sheet) as [[sheet' st]|e] eqn:E;
    [|vm_compute in E; discriminate].
  exists sheet', st. split; [reflexivity|].
  destruct (all_found_report scenario_world _ _ sheet' st [] E) as (_ & _ & Hr).
  - vm_compute in E. injection E as _ <-. reflexivity.
  - rewrite Hr. vm_compute in E. injection E as _ <-. reflexivity.
Defined.

(** X19: the number of titles the report of a run announces as missing
    is at most the number of rows of the catalog: a row adds at most one
    title to [not_found]. *)
Theorem missing_at_most_rows (w : world) (rows : list (option pystr * option pystr))
    (sheet sheet' : list sheet_row) (st : run_state) :
  process_images w rows sheet = Returned (sheet', st) ->
  (total_missing (not_found st) <= length rows)%nat.
Proof.
  unfold process_images.
  destruct (for_each (process_row w) rows initial_state) as [[[] st1]|e] eqn:E;
    [|discriminate].
  intros [= _ <-]. destruct (for_each_missing w rows _ _ E) as [Hb _].
  simpl in Hb. unfold total_missing in Hb at 1. simpl in Hb. lia.
Qed.

Lemma missing_at_most_rows_witness :
  exists sheet' st,
    process_images scenario_world scenario_rows scenario_sheet = Returned (sheet', st) /\
    total_missing (not_found st) = 2%nat /\
    (total_missing (not_found st) <= 3)%nat.
Proof.
  destruct (process_images scenario_world scenario_rows scenario_sheet)
    as [[sheet' st]|e] eqn:E; [|vm_compute in E; discriminate].
  exists sheet', st. split; [reflexivity|].
  pose proof (missing_at_most_rows scenario_world scenario_rows scenario_sheet
                sheet' st E) as H.
  split; [|exact H].
  vm_compute in E. injection E as _ <-. reflexivity.
Defined.

(** ** The drafted message *)

Section DedentFacts.

Lemma split_nl_nonempty (s : pystr) : exists l ls, split_nl s = l :: ls.
Proof.
  induction s as [|c s IH]; simpl; [eauto|].
  destruct (c =? nl); [eauto|]. destruct IH as (l & ls & ->). eauto.
Qed.

Lemma split_nl_app_nl (a b : pystr) :
  split_nl (a ++ nl :: b) = split_nl a ++ split_nl b.
Proof.
  induction a as [|c a IH]; simpl; [reflexivity|].
  destruct (c =? nl); [rewrite IH; reflexivity|].
  rewrite IH. destruct (split_nl_nonempty a) as (l & ls & ->). reflexivity.
Qed.

Lemma split_nl_free (a : pystr) : ~ In nl a -> split_nl a = [a].
Proof.
  induction a as [|c a IH]; simpl; intros H; [reflexivity|].
  destruct (c =? nl) eqn:E.
  - apply N.eqb_eq in E. destruct H. auto.
  - rewrite IH; [reflexivity|]. intros Hin. apply H. auto.
Qed.

Lemma join_cons (x y : pystr) (l : list pystr) :
  join [nl] (x :: y :: l) = x ++ nl :: join [nl] (y :: l).
Proof. reflexivity. Qed.

Lemma split_nl_join (ls : list pystr) :
  ls <> [] -> (forall l, In l ls -> ~ In nl l) -> split_nl (join [nl] ls) = ls.
Proof.
  induction ls as [|x ls IH]; [contradiction|]. intros _ Hfree.
  destruct ls as [|y ls].
  - simpl. apply split_nl_free. apply Hfree. left. reflexivity.
  - rewrite join_cons, split_nl_app_nl, IH; [|discriminate|].
    + rewrite split_nl_free; [reflexivity|]. apply Hfree. left. reflexivity.
    + intros l Hl. apply Hfree. right. exact Hl.
Qed.

Lemma narrow_nil (margin : option pystr) : narrow margin [] = Some [].
Proof. destruct margin as [[|c m]|]; reflexivity. Qed.

Lemma fold_narrow_nil (ins : list pystr) :
  fold_left narrow ins (Some []) = Some [].
Proof. induction ins as [|i ins IH]; simpl; [reflexivity|exact IH]. Qed.

Lemma fold_narrow_has_nil (ins : list pystr) :
  In [] ins -> forall margin, fold_left narrow ins margin = Some [].
Proof.
  induction ins as [|i ins IH]; [intros []|]. intros [->|Hin] margin; simpl.
  - rewrite narrow_nil. apply fold_narrow_nil.
  - apply IH. exact Hin.
Qed.

Lemma startswith_refl (m : pystr) : startswith m m = true.
Proof. induction m as [|c m IH]; simpl; [reflexivity|]. rewrite N.eqb_refl. exact IH. Qed.

Lemma fold_narrow_repeat (m : pystr) (k : nat) :
  fold_left narrow (repeat m k) (Some m) = Some m.
Proof.
  induction k as [|k IH]; simpl; [reflexivity|].
  rewrite startswith_refl. exact IH.
Qed.

Lemma blank_not_nl (l : pystr) : forallb is_blank_char l = true -> ~ In nl l.
Proof.
  intros H Hin. rewrite forallb_forall in H. specialize (H _ Hin). discriminate.
Qed.

Lemma leading_blanks_margin (m : pystr) (c : codepoint) (rest : pystr) :
  forallb is_blank_char m = true -> is_blank_char c = false ->
  leading_blanks (m ++ c :: rest) = m.
Proof.
  intros Hm Hc. induction m as [|a m IH]; simpl in *.
  - rewrite Hc. reflexivity.
  - apply andb_true_iff in Hm as [Ha Hm]. rewrite Ha, (IH Hm). reflexivity.
Qed.

Lemma blank_line_content (m : pystr) (c : codepoint) (rest : pystr) :
  is_blank_char c = false -> blank_line (m ++ c :: rest) = m ++ c :: rest.
Proof.
  intros Hc. unfold blank_line. rewrite forallb_app. simpl. rewrite Hc.
  rewrite andb_false_r. reflexivity.
Qed.

Lemma remove_margin_content (m rest : pystr) :
  remove_margin m (m ++ rest) = rest.
Proof.
  unfold remove_margin. rewrite startswith_app. apply drop_app_length.
Qed.

Lemma margin_match {A : Type} (margin : pystr) (f : pystr -> A) (d : A) :
  margin <> [] ->
  match Some margin with
  | Some (c :: m') => f (c :: m')
  | _ => d
  end = f margin.
Proof. destruct margin; [contradiction|reflexivity]. Qed.

Variable m : pystr.
Hypothesis m_blank : forallb is_blank_char m = true.
Hypothesis m_nonempty : m <> [].

Lemma indents_uniform (xs : list text_line) :
  Forall line_ok xs ->
  indents (List.map blank_line (List.map (raw_line m) xs))
  = repeat m (length (List.filter is_content xs)).
Proof.
  unfold indents. induction xs as [|x xs IH]; intros Hok; [reflexivity|].
  apply Forall_cons in Hok as [Hx Hxs]. specialize (IH Hxs).
  destruct x as [l|c rest]; simpl in *.
  - assert (Hb : blank_line l = []) by (unfold blank_line; rewrite Hx; reflexivity).
    rewrite Hb. simpl. exact IH.
  - destruct Hx as (Hc & _ & _). rewrite (blank_line_content _ _ _ Hc).
    rewrite bool_decide_eq_false_2 by (destruct m; discriminate).
    simpl. rewrite (leading_blanks_margin _ _ _ m_blank Hc), IH. reflexivity.
Qed.

Lemma remove_margin_uniform (xs : list text_line) :
  Forall line_ok xs ->
  List.map (remove_margin m) (List.map blank_line (List.map (raw_line m) xs))
  = List.map dedented_line xs.
Proof.
  induction xs as [|x xs IH]; intros Hok; [reflexivity|].
  apply Forall_cons in Hok as [Hx Hxs]. simpl. rewrite (IH Hxs). f_equal.
  destruct x as [l|c rest]; simpl in *.
  - assert (Hb : blank_line l = []) by (unfold blank_line; rewrite Hx; reflexivity).
    rewrite Hb. unfold remove_margin. destruct m; [contradiction|reflexivity].
  - destruct Hx as (Hc & _ & _). rewrite (blank_line_content _ _ _ Hc).
    apply remove_margin_content.
Qed.

(** [dedent] on a text whose lines are blank or start with the same
    margin removes the margin and empties the blank lines. *)
Lemma dedent_uniform (xs : list text_line) :
  Forall line_ok xs ->
  existsb is_content xs = true ->
  dedent (join [nl] (List.map (raw_line m) xs)) = join [nl] (List.map dedented_line xs).
Proof.
  intros Hok Hc. unfold dedent.
  rewrite split_nl_join.
  - rewrite (indents_uniform xs Hok).
    destruct (List.filter is_content xs) as [|x0 l0] eqn:Ef.
    + exfalso. apply existsb_exists in Hc as (x & Hin & Hx).
      assert (Hf : In x (List.filter is_content xs)) by (apply filter_In; auto).
      rewrite Ef in Hf. destruct Hf.
    + simpl. rewrite fold_narrow_repeat.
      etransitivity;
        [exact (margin_match m
                  (fun mm => join [nl]
                     (List.map (remove_margin mm)
                        (List.map blank_line (List.map (raw_line m) xs))))
                  _ m_nonempty)|].
      cbv beta. rewrite (remove_margin_uniform xs Hok). reflexivity.
  - destruct xs; [discriminate|discriminate].
  - intros l Hl. apply in_map_iff in Hl as (x & <- & Hx).
    rewrite List.Forall_forall in Hok. specialize (Hok x Hx).
    destruct x as [l0|c rest]; simpl in *.
    + apply blank_not_nl. exact Hok.
    + destruct Hok as (_ & Hc1 & Hr). intros Hin.
      apply in_app_or in Hin as [Hin|[Hin|Hin]]; auto.
      exact (blank_not_nl m m_blank Hin).
Qed.

End DedentFacts.

Section MessageFacts.

Lemma tail_lines_app (a b x : pystr) :
  In x (tail (split_nl b)) -> In x (tail (split_nl (a ++ b))).
Proof.
  intros H. induction a as [|c a IH]; simpl; [exact H|].
  destruct (c =? nl).
  - simpl. destruct (split_nl (a ++ b)); [destruct IH|]. right. exact IH.
  - destruct (split_nl (a ++ b)) as [|l ls]; [destruct IH|]. exact IH.
Qed.

Lemma first_line_prefix (p s : pystr) :
  forallb (fun c => negb (c =? nl)) p = true ->
  exists l ls, split_nl (p ++ s) = (p ++ l) :: ls.
Proof.
  induction p as [|c p IH]; simpl; intros H.
  - destruct (split_nl_nonempty s) as (l & ls & ->). eauto.
  - apply andb_true_iff in H as [Hc Hp]. apply negb_true_iff in Hc. rewrite Hc.
    destruct (IH Hp) as (l & ls & ->). eauto.
Qed.

Lemma not_in_free (l : pystr) :
  forallb (fun c => negb (c =? nl)) l = true -> ~ In nl l.
Proof.
  intros H Hin. rewrite forallb_forall in H. specialize (H _ Hin).
  rewrite N.eqb_refl in H. discriminate.
Qed.

Lemma not_in_app3 (a x b : pystr) :
  forallb (fun c => negb (c =? nl)) a = true -> ~ In nl x ->
  forallb (fun c => negb (c =? nl)) b = true -> ~ In nl (a ++ x ++ b).
Proof.
  intros Ha Hx Hb Hin.
  apply in_app_or in Hin as [Hin|Hin]; [exact (not_in_free _ Ha Hin)|].
  apply in_app_or in Hin as [Hin|Hin]; [exact (Hx Hin)|exact (not_in_free _ Hb Hin)].
Qed.

End MessageFacts.

(** X20: with two titles or more the drafted message is not dedented:
    the line of the second title starts in the first column, so the
    margin [dedent] computes is empty, and the message keeps the twenty
    spaces in front of ["Hi"]. *)
Theorem message_keeps_indentation (name t1 t2 : pystr) (rest : list pystr) :
  message name (t1 :: t2 :: rest)
  = join [nl] (List.map blank_line
                 (split_nl (message_text name (t1 :: t2 :: rest)))) /\
  startswith (py "                    Hi ") (message name (t1 :: t2 :: rest)) = true.
Proof.
  assert (Hline : exists l,
             In (0x2D :: l) (split_nl (message_text name (t1 :: t2 :: rest)))).
  { assert (H : exists l,
               In (0x2D :: l)
                  (tail (split_nl (message_text name (t1 :: t2 :: rest))))).
    { unfold message_text.
      change (List.flat_map (fun t => py "- " ++ t ++ [nl]) (t1 :: t2 :: rest))
        with ((py "- " ++ t1 ++ [nl])
              ++ (py "- " ++ t2 ++ [nl])
              ++ List.flat_map (fun t => py "- " ++ t ++ [nl]) rest).
      rewrite <- !app_assoc.
      match goal with
      | |- context [t2 ++ ?X] => set (B := t2 ++ X)
      end.
      destruct (split_nl_nonempty B) as (l & ls & El).
      exists (0x20 :: l).
      do 13 apply tail_lines_app.
      change ([nl] ++ py "- " ++ B) with (nl :: 0x2D :: 0x20 :: B).
      simpl. rewrite El. left. reflexivity. }
    destruct H as [l Hl]. exists l.
    destruct (split_nl _) as [|l0 ls0]; [destruct Hl|]. right. exact Hl. }
  assert (Hdedent : message name (t1 :: t2 :: rest)
                    = join [nl] (List.map blank_line
                        (split_nl (message_text name (t1 :: t2 :: rest))))).
  { unfold message, dedent. rewrite fold_narrow_has_nil; [reflexivity|].
    destruct Hline as [l Hl]. unfold indents.
    apply in_map_iff. exists (0x2D :: l). split; [reflexivity|].
    apply filter_In. split; [|reflexivity].
    apply in_map_iff. exists (0x2D :: l). split; [reflexivity|exact Hl]. }
  split; [exact Hdedent|]. rewrite Hdedent.
  unfold message_text.
  destruct (first_line_prefix (py "                    Hi ")
              (name ++ py "," ++ [nl] ++ [nl]
               ++ py "                    I hope this message finds you well." ++ [nl]
               ++ py "                    Could you please assist with the poster and still images for the titles listed below?" ++ [nl]
               ++ [nl]
               ++ py "                    "
               ++ List.flat_map (fun t => py "- " ++ t ++ [nl]) (t1 :: t2 :: rest)
               ++ [nl] ++ [nl]
               ++ py "                    These assets will be featured onboard the Condor 0225 update." ++ [nl]
               ++ [nl]
               ++ py "                    Thank you in advance." ++ [nl]
               ++ [nl]
               ++ py "                    Best regards," ++ [nl]
               ++ py "                ")
              eq_refl) as (l & ls & ->).
  rewrite List.map_cons.
  assert (Hb : blank_line (py "                    Hi " ++ l)
               = py "                    Hi " ++ l).
  { unfold blank_line. rewrite forallb_app.
    replace (forallb is_blank_char (py "                    Hi ")) with false
      by (vm_compute; reflexivity).
    reflexivity. }
  rewrite Hb. destruct (List.map blank_line ls) as [|y ys].
  - apply startswith_app.
  - rewrite join_cons, <- app_assoc. apply startswith_app.
Qed.

(** X21: with one title, and no line feed in the contact name or in
    the title, the drafted message is the text of lines 258 to 270
    without its margin of twenty spaces, the line of sixteen spaces
    that ends it emptied. *)
Theorem message_one_title (name t : pystr) :
  ~ In nl name ->
  ~ In nl t ->
  message name [t]
  = join [nl]
      [ py "Hi " ++ name ++ py ",";
        [];
        py "I hope this message finds you well.";
        py "Could you please assist with the poster and still images for the titles listed below?";
        [];
        py "- " ++ t;
        [];
        [];
        py "These assets will be featured onboard the Condor 0225 update.";
        [];
        py "Thank you in advance.";
        [];
        py "Best regards,";
        [] ].
Proof.
  intros Hname Ht.
  set (xs :=
    [ ContentLine 0x48 (py "i " ++ name ++ py ",");
      BlankLine [];
      ContentLine 0x49 (py " hope this message finds you well.");
      ContentLine 0x43 (py "ould you please assist with the poster and still images for the titles listed below?");
      BlankLine [];
      ContentLine 0x2D (py " " ++ t ++ []);
      BlankLine [];
      BlankLine [];
      ContentLine 0x54 (py "hese assets will be featured onboard the Condor 0225 update.");
      BlankLine [];
      ContentLine 0x54 (py "hank you in advance.");
      BlankLine [];
      ContentLine 0x42 (py "est regards,");
      BlankLine (py "                ") ]).
  assert (Htext : message_text name [t]
                  = join [nl] (List.map (raw_line (py "                    ")) xs)).
  { unfold message_text, xs.
    repeat (progress (cbn; rewrite <- ?app_assoc)). reflexivity. }
  unfold message. rewrite Htext.
  rewrite (dedent_uniform (py "                    ")).
  - unfold xs. cbn. rewrite app_nil_r. reflexivity.
  - reflexivity.
  - discriminate.
  - unfold xs.
    repeat (apply List.Forall_cons || apply List.Forall_nil);
      try (vm_compute; reflexivity);
      (split; [vm_compute; reflexivity|]); (split; [discriminate|]);
      try (apply not_in_free; vm_compute; reflexivity).
    + apply not_in_app3; [reflexivity|exact Hname|reflexivity].
    + apply not_in_app3; [reflexivity|exact Ht|reflexivity].
  - reflexivity.
Qed.

Lemma message_one_title_witness :
  message (py "Ann") [py "Title B"]
  = join [nl]
      [ py "Hi " ++ py "Ann" ++ py ",";
        [];
        py "I hope this message finds you well.";
        py "Could you please assist with the poster and still images for the titles listed below?";
        [];
        py "- " ++ py "Title B";
        [];
        [];
        py "These assets will be featured onboard the Condor 0225 update.";
        [];
        py "Thank you in advance.";
        [];
        py "Best regards,";
        [] ].
Proof.
  apply message_one_title; vm_compute; intuition discriminate.
Defined.

(** The report of the end-to-end scenario, without contact data: the
    title that was not found and the row without a title, under their
    distributor. *)
Example scenario_report :
  process_images_report scenario_world scenario_rows scenario_sheet []
  = Returned
      ([ {| cellB := Some (py "Title A"); cellD := Some (py "title-a-final.jpg");
            cellE := None |};
         {| cellB := Some (py "Title B"); cellD := None; cellE := None |} ],
       join [nl]
         [ py "Images were not found for 2 titles:" ++ [nl];
           py "DISTRIBUTOR DISTY:";
           py " - Title B";
           py " - Undefined title";
           py "No contact information found for DistY" ]).
Proof. vm_compute. reflexivity. Qed.
